(** * Font-to-table converter: block classification and glyph enrichment

    A shallow embedding of the two Python programs of the repository, the
    English-language converter and its Chinese-language sibling [tmp.py]:
    the Unicode block lookup [get_unicode_block], the per-code-point loop of
    [extract_font_glyphs], and the frame preparation of [save_table].

    What is outside the embedding: the Tk widgets (the writes to
    [progress_var] and [status_var] and the calls of [root.update] inside the
    loop are taken not to raise), the loading of the font file, and the five
    file writers.  The Unicode character database and the font's glyph-name
    lookup are collaborators of the program and enter as the class [Host]. *)

From Stdlib Require Import ZArith List String Ascii Bool Lia.
From Stdlib Require Import Sorted Permutation.
Import ListNotations.

Local Open Scope string_scope.
Local Open Scope list_scope.
Local Open Scope Z_scope.

(** ** Python values *)

(** A block table entry is the tuple [(start, end, name)] of the source.
    Python integers are unbounded, hence [Z]; names are kept as the UTF-8
    text of the source literal. *)
Definition block_range : Type := Z * Z * string.

Definition range_start (r : block_range) : Z := fst (fst r).
Definition range_end (r : block_range) : Z := snd (fst r).
Definition range_name (r : block_range) : string := snd r.

(** The chained comparison [start <= code_point <= end]. *)
Definition in_range (r : block_range) (code_point : Z) : bool :=
  (range_start r <=? code_point) && (code_point <=? range_end r).

(** Exceptions that the modelled statements can raise.  All of them are
    subclasses of [Exception], so the [except Exception] of the loop catches
    every one. *)
Inductive exn : Type :=
| ValueError
| OverflowError
| CollaboratorError
| Exception (msg : string).

Inductive result (A : Type) : Type :=
| Ok (a : A)
| Err (e : exn).
Arguments Ok {A} a.
Arguments Err {A} e.

(** A one-character [str] is kept by its code point; the [Character] column
    holds such strings, as a sequence of code points. *)
Definition pychar : Type := Z.
Definition pystr : Type := list Z.

(** The builtin [chr]: in CPython an argument that does not fit a C [int]
    raises [OverflowError], one outside [range(0x110000)] raises [ValueError].
    Surrogate code points are inside the range: Python builds the lone
    surrogate character for them. *)
Definition chr (i : Z) : result pychar :=
  if (i <? - 2 ^ 31) || (2 ^ 31 - 1 <? i) then Err OverflowError
  else if (i <? 0) || (0x10FFFF <? i) then Err ValueError
  else Ok i.

(** [category.startswith('C')] *)
Definition startswith_C (category : string) : bool := prefix "C" category.

(** ** Number formatting: the format spec [04X] *)

Definition hex_digit (d : Z) : ascii :=
  if d <? 10 then ascii_of_nat (Z.to_nat (48 + d))
  else ascii_of_nat (Z.to_nat (55 + d)).

(** Digits of a non-negative integer, most significant first; [fuel] bounds
    the number of digits. *)
Fixpoint hex_digits (fuel : nat) (n : Z) (acc : string) : string :=
  let acc' := String (hex_digit (n mod 16)) acc in
  match fuel with
  | O => acc'
  | S fuel' => if n / 16 =? 0 then acc' else hex_digits fuel' (n / 16) acc'
  end.

Definition hex_upper (n : Z) : string :=
  hex_digits (Z.to_nat (Z.log2 n)) n EmptyString.

Fixpoint zeros (k : nat) : string :=
  match k with
  | O => EmptyString
  | S k' => String "0" (zeros k')
  end.

(** Left padding with the digit zero up to [width] characters. *)
Definition zfill (width : nat) (s : string) : string :=
  (zeros (width - String.length s) ++ s)%string.

(** [format(n, '04X')]: the sign is written first and counts in the width. *)
Definition format_04X (n : Z) : string :=
  if n <? 0 then String "-" (zfill 3 (hex_upper (- n)))
  else zfill 4 (hex_upper n).

(** ** The loop monad: state, [continue] and exceptions *)

Inductive outcome (A : Type) : Type :=
| Normal (a : A)
| Continue
| Raised (e : exn).
Arguments Normal {A} a.
Arguments Continue {A}.
Arguments Raised {A} e.

Definition M (S A : Type) : Type := S -> outcome A * S.

Definition ret {S A : Type} (a : A) : M S A := fun s => (Normal a, s).

Definition bind {S A B : Type} (m : M S A) (k : A -> M S B) : M S B :=
  fun s =>
    match m s with
    | (Normal a, s') => k a s'
    | (Continue, s') => (Continue, s')
    | (Raised e, s') => (Raised e, s')
    end.

Notation "x <- m ;; k" := (bind m (fun x => k))
  (at level 61, m at next level, right associativity).
Notation "m ;; k" := (bind m (fun _ => k))
  (at level 61, right associativity).

Definition continue {S A : Type} : M S A := fun s => (Continue, s).

Definition lift {S A : Type} (r : result A) : M S A :=
  fun s => match r with
           | Ok a => (Normal a, s)
           | Err e => (Raised e, s)
           end.

(** [try: m  except: handler] with a bare [except]. *)
Definition try_except {S A : Type} (m handler : M S A) : M S A :=
  fun s => match m s with
           | (Raised _, s') => handler s'
           | other => other
           end.

Definition modify {S : Type} (f : S -> S) : M S unit :=
  fun s => (Normal tt, f s).

(** The local variables of [extract_font_glyphs] that the loop updates. *)
Record loop_state (R : Type) : Type := mk_loop_state {
  glyphs_data : list R;
  processed : Z
}.
Arguments mk_loop_state {R} _ _.
Arguments glyphs_data {R} _.
Arguments processed {R} _.

Definition incr_processed {R : Type} : M (loop_state R) unit :=
  modify (fun s => mk_loop_state (glyphs_data s) (processed s + 1)).

(** [glyphs_data.append(row)] *)
Definition append {R : Type} (row : R) : M (loop_state R) unit :=
  modify (fun s => mk_loop_state (glyphs_data s ++ [row]) (processed s)).

(** [for item in items: try: body(item)  except Exception: continue].
    Whether the body ends, executes [continue] or raises, the loop goes on
    to the next item with the state reached so far. *)
Fixpoint for_items {S I : Type} (body : I -> M S unit) (items : list I)
  (s : S) : S :=
  match items with
  | [] => s
  | item :: rest => for_items body rest (snd (body item s))
  end.

(** ** Collaborators *)

(** The Unicode character database of the host ([unicodedata]) and the
    font's glyph-name lookup.  [None] stands for a raised exception: for
    [unicodedata_name] the [ValueError] of a character without a name. *)
Class Host : Type := {
  unicodedata_category : pychar -> option string;
  unicodedata_name : pychar -> option string;
  font_getGlyphName : string -> option string
}.

(** The call [unicodedata.category(char)] as a statement of the loop. *)
Definition category_call `{Host} {S : Type} (char : pychar) : M S string :=
  match unicodedata_category char with
  | Some category => ret category
  | None => lift (Err CollaboratorError)
  end.

(** The best cmap of the font: a [dict] from code point to glyph identifier,
    as the list of its items in iteration order. *)
Definition cmap_t : Type := list (Z * string).

Definition option_list {A : Type} (o : option A) : list A :=
  match o with
  | Some a => [a]
  | None => []
  end.

(** ** Sorting *)

(** [list.sort()] on tuples: lexicographic [<] on [(start, end, name)]; the
    sort is stable. *)
Definition tuple_lt (a b : block_range) : bool :=
  if range_start a <? range_start b then true
  else if range_start b <? range_start a then false
  else if range_end a <? range_end b then true
  else if range_end b <? range_end a then false
  else (range_name a <? range_name b)%string.

Section Sort.
Context {A : Type} (lt : A -> A -> bool).

Fixpoint insert_sorted (x : A) (l : list A) : list A :=
    match l with
    | [] => [x]
    | y :: l' => if lt x y then x :: y :: l' else y :: insert_sorted x l'
    end.

Definition stable_sort (l : list A) : list A :=
    fold_left (fun acc x => insert_sorted x acc) l [].
End Sort.

(** [df.sort_values(key)] for an integer column: ascending by the key.  The
    frame sorted here has distinct keys, for which every sorting algorithm
    returns the same list (lemma [sort_values_unique] below). *)
Definition sort_values {A : Type} (key : A -> Z) (data : list A) : list A :=
  stable_sort (fun x y => key x <? key y) data.

(** ** The writers *)

(** The five ways in which [save_table] writes the frame: [to_csv],
    [to_excel], [to_json], [to_html] wrapped in a page, [to_markdown]. *)
Inductive writer : Type :=
| to_csv
| to_excel
| to_json
| to_html
| to_markdown.

(** ** The English-language converter *)

Module En.

(** The local list [blocks] of [load_unicode_blocks], in source order. *)
Definition blocks : list block_range :=
  [ (0x0000, 0x007F, "Basic Latin");
    (0x0080, 0x00FF, "Latin-1 Supplement");
    (0x0100, 0x017F, "Latin Extended-A");
    (0x0180, 0x024F, "Latin Extended-B");
    (0x0250, 0x02AF, "IPA Extensions");
    (0x02B0, 0x02FF, "Spacing Modifier Letters");
    (0x0300, 0x036F, "Combining Diacritical Marks");
    (0x0370, 0x03FF, "Greek and Coptic");
    (0x0400, 0x04FF, "Cyrillic");
    (0x0500, 0x052F, "Cyrillic Supplement");
    (0x0530, 0x058F, "Armenian");
    (0x0590, 0x05FF, "Hebrew");
    (0x0600, 0x06FF, "Arabic");
    (0x0700, 0x074F, "Syriac");
    (0x0750, 0x077F, "Arabic Supplement");
    (0x0780, 0x07BF, "Thaana");
    (0x07C0, 0x07FF, "NKo");
    (0x0800, 0x083F, "Samaritan");
    (0x0840, 0x085F, "Mandaic");
    (0x0860, 0x086F, "Syriac Supplement");
    (0x0870, 0x089F, "Arabic Extended-B");
    (0x08A0, 0x08FF, "Arabic Extended-A");
    (0x0900, 0x097F, "Devanagari");
    (0x0980, 0x09FF, "Bengali");
    (0x0A00, 0x0A7F, "Gurmukhi");
    (0x0A80, 0x0AFF, "Gujarati");
    (0x0B00, 0x0B7F, "Oriya");
    (0x0B80, 0x0BFF, "Tamil");
    (0x0C00, 0x0C7F, "Telugu");
    (0x0C80, 0x0CFF, "Kannada");
    (0x0D00, 0x0D7F, "Malayalam");
    (0x0D80, 0x0DFF, "Sinhala");
    (0x0E00, 0x0E7F, "Thai");
    (0x0E80, 0x0EFF, "Lao");
    (0x0F00, 0x0FFF, "Tibetan");
    (0x1000, 0x109F, "Myanmar");
    (0x10A0, 0x10FF, "Georgian");
    (0x1100, 0x11FF, "Hangul Jamo");
    (0x1200, 0x137F, "Ethiopic");
    (0x1380, 0x139F, "Ethiopic Supplement");
    (0x13A0, 0x13FF, "Cherokee");
    (0x1400, 0x167F, "Unified Canadian Aboriginal Syllabics");
    (0x1680, 0x169F, "Ogham");
    (0x16A0, 0x16FF, "Runic");
    (0x1700, 0x171F, "Tagalog");
    (0x1720, 0x173F, "Hanunoo");
    (0x1740, 0x175F, "Buhid");
    (0x1760, 0x177F, "Tagbanwa");
    (0x1780, 0x17FF, "Khmer");
    (0x1800, 0x18AF, "Mongolian");
    (0x18B0, 0x18FF, "Unified Canadian Aboriginal Syllabics Extended");
    (0x1900, 0x194F, "Limbu");
    (0x1950, 0x197F, "Tai Le");
    (0x1980, 0x19DF, "New Tai Lue");
    (0x19E0, 0x19FF, "Khmer Symbols");
    (0x1A00, 0x1A1F, "Buginese");
    (0x1A20, 0x1AAF, "Tai Tham");
    (0x1AB0, 0x1AFF, "Combining Diacritical Marks Extended");
    (0x1B00, 0x1B7F, "Balinese");
    (0x1B80, 0x1BBF, "Sundanese");
    (0x1BC0, 0x1BFF, "Batak");
    (0x1C00, 0x1C4F, "Lepcha");
    (0x1C50, 0x1C7F, "Ol Chiki");
    (0x1C80, 0x1C8F, "Cyrillic Extended-C");
    (0x1C90, 0x1CBF, "Georgian Extended");
    (0x1CC0, 0x1CCF, "Sundanese Supplement");
    (0x1CD0, 0x1CFF, "Vedic Extensions");
    (0x1D00, 0x1D7F, "Phonetic Extensions");
    (0x1D80, 0x1DBF, "Phonetic Extensions Supplement");
    (0x1DC0, 0x1DFF, "Combining Diacritical Marks Supplement");
    (0x1E00, 0x1EFF, "Latin Extended Additional");
    (0x1F00, 0x1FFF, "Greek Extended");
    (0x2000, 0x206F, "General Punctuation");
    (0x2070, 0x209F, "Superscripts and Subscripts");
    (0x20A0, 0x20CF, "Currency Symbols");
    (0x20D0, 0x20FF, "Combining Diacritical Marks for Symbols");
    (0x2100, 0x214F, "Letterlike Symbols");
    (0x2150, 0x218F, "Number Forms");
    (0x2190, 0x21FF, "Arrows");
    (0x2200, 0x22FF, "Mathematical Operators");
    (0x2300, 0x23FF, "Miscellaneous Technical");
    (0x2400, 0x243F, "Control Pictures");
    (0x2440, 0x245F, "Optical Character Recognition");
    (0x2460, 0x24FF, "Enclosed Alphanumerics");
    (0x2500, 0x257F, "Box Drawing");
    (0x2580, 0x259F, "Block Elements");
    (0x25A0, 0x25FF, "Geometric Shapes");
    (0x2600, 0x26FF, "Miscellaneous Symbols");
    (0x2700, 0x27BF, "Dingbats");
    (0x27C0, 0x27EF, "Miscellaneous Mathematical Symbols-A");
    (0x27F0, 0x27FF, "Supplemental Arrows-A");
    (0x2800, 0x28FF, "Braille Patterns");
    (0x2900, 0x297F, "Supplemental Arrows-B");
    (0x2980, 0x29FF, "Miscellaneous Mathematical Symbols-B");
    (0x2A00, 0x2AFF, "Supplemental Mathematical Operators");
    (0x2B00, 0x2BFF, "Miscellaneous Symbols and Arrows");
    (0x2C00, 0x2C5F, "Glagolitic");
    (0x2C60, 0x2C7F, "Latin Extended-C");
    (0x2C80, 0x2CFF, "Coptic");
    (0x2D00, 0x2D2F, "Georgian Supplement");
    (0x2D30, 0x2D7F, "Tifinagh");
    (0x2D80, 0x2DDF, "Ethiopic Extended");
    (0x2DE0, 0x2DFF, "Cyrillic Extended-A");
    (0x2E00, 0x2E7F, "Supplemental Punctuation");
    (0x2E80, 0x2EFF, "CJK Radicals Supplement");
    (0x2F00, 0x2FDF, "Kangxi Radicals");
    (0x2FF0, 0x2FFF, "Ideographic Description Characters");
    (0x3000, 0x303F, "CJK Symbols and Punctuation");
    (0x3040, 0x309F, "Hiragana");
    (0x30A0, 0x30FF, "Katakana");
    (0x3100, 0x312F, "Bopomofo");
    (0x3130, 0x318F, "Hangul Compatibility Jamo");
    (0x3190, 0x319F, "Kanbun");
    (0x31A0, 0x31BF, "Bopomofo Extended");
    (0x31C0, 0x31EF, "CJK Strokes");
    (0x31F0, 0x31FF, "Katakana Phonetic Extensions");
    (0x3200, 0x32FF, "Enclosed CJK Letters and Months");
    (0x3300, 0x33FF, "CJK Compatibility");
    (0x3400, 0x4DBF, "CJK Unified Ideographs Extension A");
    (0x4DC0, 0x4DFF, "Yijing Hexagram Symbols");
    (0x4E00, 0x9FFF, "CJK Unified Ideographs");
    (0xA000, 0xA48F, "Yi Syllables");
    (0xA490, 0xA4CF, "Yi Radicals");
    (0xA4D0, 0xA4FF, "Lisu");
    (0xA500, 0xA63F, "Vai");
    (0xA640, 0xA69F, "Cyrillic Extended-B");
    (0xA6A0, 0xA6FF, "Bamum");
    (0xA700, 0xA71F, "Modifier Tone Letters");
    (0xA720, 0xA7FF, "Latin Extended-D");
    (0xA800, 0xA82F, "Syloti Nagri");
    (0xA830, 0xA83F, "Common Indic Number Forms");
    (0xA840, 0xA87F, "Phags-pa");
    (0xA880, 0xA8DF, "Saurashtra");
    (0xA8E0, 0xA8FF, "Devanagari Extended");
    (0xA900, 0xA92F, "Kayah Li");
    (0xA930, 0xA95F, "Rejang");
    (0xA960, 0xA97F, "Hangul Jamo Extended-A");
    (0xA980, 0xA9DF, "Javanese");
    (0xA9E0, 0xA9FF, "Myanmar Extended-B");
    (0xAA00, 0xAA5F, "Cham");
    (0xAA60, 0xAA7F, "Myanmar Extended-A");
    (0xAA80, 0xAADF, "Tai Viet");
    (0xAAE0, 0xAAFF, "Meetei Mayek Extensions");
    (0xAB00, 0xAB2F, "Ethiopic Extended-A");
    (0xAB30, 0xAB6F, "Latin Extended-E");
    (0xAB70, 0xABBF, "Cherokee Supplement");
    (0xABC0, 0xABFF, "Meetei Mayek");
    (0xAC00, 0xD7AF, "Hangul Syllables");
    (0xD7B0, 0xD7FF, "Hangul Jamo Extended-B");
    (0xF900, 0xFAFF, "CJK Compatibility Ideographs");
    (0xFB00, 0xFB4F, "Alphabetic Presentation Forms");
    (0xFB50, 0xFDFF, "Arabic Presentation Forms-A");
    (0xFE00, 0xFE0F, "Variation Selectors");
    (0xFE10, 0xFE1F, "Vertical Forms");
    (0xFE20, 0xFE2F, "Combining Half Marks");
    (0xFE30, 0xFE4F, "CJK Compatibility Forms");
    (0xFE50, 0xFE6F, "Small Form Variants");
    (0xFE70, 0xFEFF, "Arabic Presentation Forms-B");
    (0xFF00, 0xFFEF, "Halfwidth and Fullwidth Forms");
    (0xFFF0, 0xFFFF, "Specials");
    (0x10000, 0x1007F, "Linear B Syllabary");
    (0x10080, 0x100FF, "Linear B Ideograms");
    (0x10100, 0x1013F, "Aegean Numbers");
    (0x10140, 0x1018F, "Ancient Greek Numbers");
    (0x10190, 0x101CF, "Ancient Symbols");
    (0x101D0, 0x101FF, "Phaistos Disc");
    (0x10280, 0x1029F, "Lycian");
    (0x102A0, 0x102DF, "Carian");
    (0x102E0, 0x102FF, "Coptic Epact Numbers");
    (0x10300, 0x1032F, "Old Italic");
    (0x10330, 0x1034F, "Gothic");
    (0x10350, 0x1037F, "Old Permic");
    (0x10380, 0x1039F, "Ugaritic");
    (0x103A0, 0x103DF, "Old Persian");
    (0x10400, 0x1044F, "Deseret");
    (0x10450, 0x1047F, "Shavian");
    (0x10480, 0x104AF, "Osmanya");
    (0x104B0, 0x104FF, "Osage");
    (0x10500, 0x1052F, "Elbasan");
    (0x10530, 0x1056F, "Caucasian Albanian");
    (0x10600, 0x1077F, "Linear A");
    (0x10800, 0x1083F, "Cypriot Syllabary");
    (0x10840, 0x1085F, "Imperial Aramaic");
    (0x10860, 0x1087F, "Palmyrene");
    (0x10880, 0x108AF, "Nabataean");
    (0x108E0, 0x108FF, "Hatran");
    (0x10900, 0x1091F, "Phoenician");
    (0x10920, 0x1093F, "Lydian");
    (0x10980, 0x1099F, "Meroitic Hieroglyphs");
    (0x109A0, 0x109FF, "Meroitic Cursive");
    (0x10A00, 0x10A5F, "Kharoshthi");
    (0x10A60, 0x10A7F, "Old South Arabian");
    (0x10A80, 0x10A9F, "Old North Arabian");
    (0x10AC0, 0x10AFF, "Manichaean");
    (0x10B00, 0x10B3F, "Avestan");
    (0x10B40, 0x10B5F, "Inscriptional Parthian");
    (0x10B60, 0x10B7F, "Inscriptional Pahlavi");
    (0x10B80, 0x10BAF, "Psalter Pahlavi");
    (0x10C00, 0x10C4F, "Old Turkic");
    (0x10C80, 0x10CFF, "Old Hungarian");
    (0x10E60, 0x10E7F, "Rumi Numeral Symbols");
    (0x10F00, 0x10F2F, "Old Sogdian");
    (0x10F30, 0x10F6F, "Sogdian");
    (0x10FB0, 0x10FDF, "Chorasmian");
    (0x10FE0, 0x10FFF, "Elymaic");
    (0x11000, 0x1107F, "Brahmi");
    (0x11080, 0x110CF, "Kaithi");
    (0x110D0, 0x110FF, "Sora Sompeng");
    (0x11100, 0x1114F, "Chakma");
    (0x11150, 0x1117F, "Mahajani");
    (0x11180, 0x111DF, "Sharada");
    (0x111E0, 0x111FF, "Sinhala Archaic Numbers");
    (0x11200, 0x1124F, "Khojki");
    (0x11280, 0x112AF, "Multani");
    (0x112B0, 0x112FF, "Khudawadi");
    (0x11300, 0x1137F, "Grantha");
    (0x11400, 0x1147F, "Newa");
    (0x11480, 0x114DF, "Tirhuta");
    (0x11580, 0x115FF, "Siddham");
    (0x11600, 0x1165F, "Modi");
    (0x11660, 0x1167F, "Mongolian Supplement");
    (0x11680, 0x116CF, "Takri");
    (0x11700, 0x1174F, "Ahom");
    (0x11800, 0x1184F, "Dogra");
    (0x118A0, 0x118FF, "Warang Citi");
    (0x11900, 0x1195F, "Dives Akuru");
    (0x119A0, 0x119FF, "Nandinagari");
    (0x11A00, 0x11A4F, "Zanabazar Square");
    (0x11A50, 0x11AAF, "Soyombo");
    (0x11AC0, 0x11AFF, "Pau Cin Hau");
    (0x11C00, 0x11C6F, "Bhaiksuki");
    (0x11C70, 0x11CBF, "Marchen");
    (0x11D00, 0x11D5F, "Masaram Gondi");
    (0x11D60, 0x11DAF, "Gunjala Gondi");
    (0x11EE0, 0x11EFF, "Makasar");
    (0x11FB0, 0x11FBF, "Lisu Supplement");
    (0x11FC0, 0x11FFF, "Tamil Supplement");
    (0x12000, 0x123FF, "Cuneiform");
    (0x12400, 0x1247F, "Cuneiform Numbers and Punctuation");
    (0x12480, 0x1254F, "Early Dynastic Cuneiform");
    (0x13000, 0x1342F, "Egyptian Hieroglyphs");
    (0x13430, 0x1343F, "Egyptian Hieroglyph Format Controls");
    (0x14400, 0x1467F, "Anatolian Hieroglyphs");
    (0x16800, 0x16A3F, "Bamum Supplement");
    (0x16A40, 0x16A6F, "Mro");
    (0x16AD0, 0x16AFF, "Bassa Vah");
    (0x16B00, 0x16B8F, "Pahawh Hmong");
    (0x16E40, 0x16E9F, "Medefaidrin");
    (0x16F00, 0x16F9F, "Miao");
    (0x16FE0, 0x16FFF, "Ideographic Symbols and Punctuation");
    (0x17000, 0x187FF, "Tangut");
    (0x18800, 0x18AFF, "Tangut Components");
    (0x18B00, 0x18CFF, "Khitan Small Script");
    (0x18D00, 0x18D7F, "Tangut Supplement");
    (0x1B000, 0x1B0FF, "Kana Supplement");
    (0x1B100, 0x1B12F, "Kana Extended-A");
    (0x1B130, 0x1B16F, "Small Kana Extension");
    (0x1B170, 0x1B2FF, "Nüshu");
    (0x1BC00, 0x1BC9F, "Duployan");
    (0x1BCA0, 0x1BCAF, "Shorthand Format Controls");
    (0x1D000, 0x1D0FF, "Byzantine Musical Symbols");
    (0x1D100, 0x1D1FF, "Musical Symbols");
    (0x1D200, 0x1D24F, "Ancient Greek Musical Notation");
    (0x1D2E0, 0x1D2FF, "Mayan Numerals");
    (0x1D300, 0x1D35F, "Tai Xuan Jing Symbols");
    (0x1D360, 0x1D37F, "Counting Rod Numerals");
    (0x1D400, 0x1D7FF, "Mathematical Alphanumeric Symbols");
    (0x1D800, 0x1DAAF, "Sutton SignWriting");
    (0x1E000, 0x1E02F, "Glagolitic Supplement");
    (0x1E100, 0x1E14F, "Nyiakeng Puachue Hmong");
    (0x1E290, 0x1E2BF, "Toto");
    (0x1E2C0, 0x1E2FF, "Wancho");
    (0x1E7E0, 0x1E7FF, "Ethiopic Extended-B");
    (0x1E800, 0x1E8DF, "Mende Kikakui");
    (0x1E900, 0x1E95F, "Adlam");
    (0x1EC70, 0x1ECBF, "Indic Siyaq Numbers");
    (0x1ED00, 0x1ED4F, "Ottoman Siyaq Numbers");
    (0x1EE00, 0x1EEFF, "Arabic Mathematical Alphabetic Symbols");
    (0x1F000, 0x1F02F, "Mahjong Tiles");
    (0x1F030, 0x1F09F, "Domino Tiles");
    (0x1F0A0, 0x1F0FF, "Playing Cards");
    (0x1F100, 0x1F1FF, "Enclosed Alphanumeric Supplement");
    (0x1F200, 0x1F2FF, "Enclosed Ideographic Supplement");
    (0x1F300, 0x1F5FF, "Miscellaneous Symbols and Pictographs");
    (0x1F600, 0x1F64F, "Emoticons");
    (0x1F650, 0x1F67F, "Ornamental Dingbats");
    (0x1F680, 0x1F6FF, "Transport and Map Symbols");
    (0x1F700, 0x1F77F, "Alchemical Symbols");
    (0x1F780, 0x1F7FF, "Geometric Shapes Extended");
    (0x1F800, 0x1F8FF, "Supplemental Arrows-C");
    (0x1F900, 0x1F9FF, "Supplemental Symbols and Pictographs");
    (0x1FA00, 0x1FA6F, "Chess Symbols");
    (0x1FA70, 0x1FAFF, "Symbols and Pictographs Extended-A");
    (0x1FB00, 0x1FBFF, "Symbols for Legacy Computing");
    (0x20000, 0x2A6DF, "CJK Unified Ideographs Extension B");
    (0x2A700, 0x2B73F, "CJK Unified Ideographs Extension C");
    (0x2B740, 0x2B81F, "CJK Unified Ideographs Extension D");
    (0x2B820, 0x2CEAF, "CJK Unified Ideographs Extension E");
    (0x2CEB0, 0x2EBEF, "CJK Unified Ideographs Extension F");
    (0x2F800, 0x2FA1F, "CJK Compatibility Ideographs Supplement");
    (0x30000, 0x3134F, "CJK Unified Ideographs Extension G");
    (0x31350, 0x323AF, "CJK Unified Ideographs Extension H");
    (0xE0000, 0xE007F, "Tags");
    (0xE0100, 0xE01EF, "Variation Selectors Supplement");
    (0xF0000, 0xFFFFF, "Supplementary Private Use Area-A");
    (0x100000, 0x10FFFF, "Supplementary Private Use Area-B") ].

(** The local list [private_use_blocks] of [load_unicode_blocks]. *)
Definition private_use_blocks : list block_range :=
  [ (0xE000, 0xF8FF, "Private Use Area");
    (0xF0000, 0xFFFFF, "Supplementary Private Use Area-A");
    (0x100000, 0x10FFFF, "Supplementary Private Use Area-B") ].

  (** [load_unicode_blocks]: the two lists combined and sorted. *)
Definition load_unicode_blocks : list block_range :=
    let all_blocks := blocks ++ private_use_blocks in
    stable_sort tuple_lt all_blocks.

  (** [get_unicode_block], with [self.unicode_blocks] as [unicode_blocks]. *)
Fixpoint get_unicode_block (unicode_blocks : list block_range)
    (code_point : Z) : string :=
    match unicode_blocks with
    | [] => "Unassigned"
    | (start, end_, name) :: rest =>
        if (start <=? code_point) && (code_point <=? end_) then name
        else get_unicode_block rest code_point
    end.

  (** The dict appended to [glyphs_data]. *)
Record glyph_row : Type := mk_glyph_row {
    Character : pystr;
    Unicode : string;
    UnicodeName : string;
    Block : string;
    GlyphName : string;
    CodePoint : Z;
    Category : string
  }.

  (** A row of the frame after [drop(columns=["CodePoint", "Category"])]. *)
Record table_row : Type := mk_table_row {
    col_Character : pystr;
    col_Unicode : string;
    col_UnicodeName : string;
    col_Block : string;
    col_GlyphName : string
  }.

Section WithHost.
Context `{Host}.

Definition get_unicode_name (char : pychar) : string :=
      match unicodedata_name char with
      | Some name => name
      | None => "Unnamed Character"
      end.

Definition get_glyph_name (glyph_id : string) : string :=
      match font_getGlyphName glyph_id with
      | Some glyph_name => glyph_name
      | None => ("glyph_" ++ glyph_id)%string
      end.

    (** The body of the [try] inside the loop of [extract_font_glyphs]. *)
Definition loop_body (unicode_blocks : list block_range)
      (include_control_chars show_preview : bool) (item : Z * string)
      : M (loop_state glyph_row) unit :=
      let '(code_point, glyph_id) := item in
      incr_processed ;;
      char <- lift (chr code_point) ;;
      category <- try_except (category_call char) (ret "Cn") ;;
      if negb include_control_chars && startswith_C category then continue
      else
        let display_char :=
          if negb show_preview && startswith_C category then [0x25A1]
          else [char] in
        let unicode_name := get_unicode_name char in
        let unicode_block := get_unicode_block unicode_blocks code_point in
        let glyph_name := get_glyph_name glyph_id in
        let unicode_hex := ("U+" ++ format_04X code_point)%string in
        append {| Character := display_char;
                  Unicode := unicode_hex;
                  UnicodeName := unicode_name;
                  Block := unicode_block;
                  GlyphName := glyph_name;
                  CodePoint := code_point;
                  Category := category |}.

    (** [extract_font_glyphs] from the best cmap on: an empty cmap raises,
        otherwise the loop runs over [cmap.items()]. *)
Definition extract_font_glyphs (unicode_blocks : list block_range)
      (cmap : cmap_t) (include_control_chars show_preview : bool)
      : result (list glyph_row) :=
      match cmap with
      | [] => Err (Exception "Cannot extract character mapping from font file")
      | _ :: _ =>
          Ok (glyphs_data
                (for_items
                   (loop_body unicode_blocks include_control_chars show_preview)
                   cmap (mk_loop_state [] 0)))
      end.
End WithHost.

Definition drop_columns (r : glyph_row) : table_row :=
    {| col_Character := Character r;
       col_Unicode := Unicode r;
       col_UnicodeName := UnicodeName r;
       col_Block := Block r;
       col_GlyphName := GlyphName r |}.

  (** [save_table] up to the choice of the writer: the frame is sorted by
      [CodePoint], then the two temporary columns are dropped. *)
Definition save_table (data : list glyph_row) : list table_row :=
    map drop_columns (sort_values CodePoint data).

(** How [convert_thread] ends: in the error message, in the warning that
    no character was found, or with the table written. *)
Inductive conversion : Type :=
  | ConversionFailed (e : exn)
  | NoCharacters
  | Saved (table : list table_row).

(** [convert_thread] from the font's cmap on.  The writer of [save_table] is
    a collaborator, [write]: [None] when it has written the frame, [Some e]
    when it raises (an encoder that meets a lone surrogate, a file that
    cannot be opened).  [save_table] runs inside the [try] of
    [convert_thread], so a raising writer ends the thread in the error
    message, as a failing extraction does. *)
Definition convert_thread `{Host} (write : list table_row -> option exn)
    (unicode_blocks : list block_range)
    (cmap : cmap_t) (include_control_chars show_preview : bool) : conversion :=
    match extract_font_glyphs unicode_blocks cmap
            include_control_chars show_preview with
    | Err e => ConversionFailed e
    | Ok [] => NoCharacters
    | Ok glyphs_data =>
        let table := save_table glyphs_data in
        match write table with
        | Some e => ConversionFailed e
        | None => Saved table
        end
    end.

(** [self.supported_table_formats]: the radio buttons of [setup_ui] set
    [table_format] to the second component of one of these pairs. *)
Definition supported_table_formats : list (string * string) :=
  [ ("CSV File", "csv");
    ("Excel File", "xlsx");
    ("JSON File", "json");
    ("HTML Table", "html");
    ("Markdown Table", "md") ].

(** The [if]/[elif] chain of [save_table] on [table_format]; the final
    [else] raises [ValueError]. *)
Definition select_writer (table_format : string) : result writer :=
  if (table_format =? "csv")%string then Ok to_csv
  else if (table_format =? "xlsx")%string then Ok to_excel
  else if (table_format =? "json")%string then Ok to_json
  else if (table_format =? "html")%string then Ok to_html
  else if (table_format =? "md")%string then Ok to_markdown
  else Err ValueError.

(** [save_table] with its format argument.  The frame is built, sorted and
    stripped before the format is looked at; a frame built from an empty
    list has no column [CodePoint], for which [sort_values] raises.  The
    selected writer then writes the frame or raises: [writers w df] is
    [None] or [Some e]. *)
Definition save_table_as (writers : writer -> list table_row -> option exn)
  (data : list glyph_row) (table_format : string)
  : result (writer * list table_row) :=
  match data with
  | [] => Err CollaboratorError
  | _ :: _ =>
      let df := save_table data in
      match select_writer table_format with
      | Ok w =>
          match writers w df with
          | Some e => Err e
          | None => Ok (w, df)
          end
      | Err e => Err e
      end
  end.

(** The message box that ends [convert_thread]. *)
Inductive message : Type :=
| showerror (e : exn)
| showwarning
| showinfo (count : nat) (w : writer) (table : list table_row).

(** [convert_thread] with the format of the radio buttons: extraction, the
    guard on an empty result, [save_table] with its writers, and the report
    of [len(glyphs_data)]; every exception ends in [showerror]. *)
Definition convert_thread_as `{Host}
  (writers : writer -> list table_row -> option exn)
  (unicode_blocks : list block_range)
  (cmap : cmap_t) (include_control_chars show_preview : bool)
  (table_format : string) : message :=
  match extract_font_glyphs unicode_blocks cmap
          include_control_chars show_preview with
  | Err e => showerror e
  | Ok [] => showwarning
  | Ok glyphs_data =>
      match save_table_as writers glyphs_data table_format with
      | Ok (w, table) => showinfo (List.length glyphs_data) w table
      | Err e => showerror e
      end
  end.

(** *** Closed forms for the statements *)

Section Statements.
Context `{Host}.

(** The value that the inner [try]/[except] leaves in [category]. *)
Definition computed_category (char : pychar) : string :=
  match unicodedata_category char with
  | Some category => category
  | None => "Cn"
  end.

(** A code point is retained when [chr] accepts it and the control-character
    filter does not execute [continue]. *)
Definition retained (include_control_chars : bool) (code_point : Z) : bool :=
  match chr code_point with
  | Ok char =>
      negb (negb include_control_chars
            && startswith_C (computed_category char))
  | Err _ => false
  end.

(** The row that one pass of the loop body appends, if any. *)
Definition row_of (unicode_blocks : list block_range)
  (include_control_chars show_preview : bool) (item : Z * string)
  : option glyph_row :=
  let '(code_point, glyph_id) := item in
  if retained include_control_chars code_point then
    let category := computed_category code_point in
    Some {| Character :=
              if negb show_preview && startswith_C category then [0x25A1]
              else [code_point];
            Unicode := ("U+" ++ format_04X code_point)%string;
            UnicodeName := get_unicode_name code_point;
            Block := get_unicode_block unicode_blocks code_point;
            GlyphName := get_glyph_name glyph_id;
            CodePoint := code_point;
            Category := category |}
  else None.

(** The columns of a row other than [Character]. *)
Definition other_columns (r : glyph_row)
  : string * string * string * string * Z * string :=
  (Unicode r, UnicodeName r, Block r, GlyphName r, CodePoint r, Category r).

Definition rows_of (unicode_blocks : list block_range)
  (include_control_chars show_preview : bool) (cmap : cmap_t)
  : list glyph_row :=
  flat_map
    (fun item =>
       option_list
         (row_of unicode_blocks include_control_chars show_preview item))
    cmap.

(** The enrichment as a whole: [extract_font_glyphs] followed by the
    [sort_values("CodePoint")] of [save_table]. *)
Definition enrich (unicode_blocks : list block_range) (cmap : cmap_t)
  (include_control_chars show_preview : bool) : result (list glyph_row) :=
  match extract_font_glyphs unicode_blocks cmap
          include_control_chars show_preview with
  | Ok glyphs_data => Ok (sort_values CodePoint glyphs_data)
  | Err e => Err e
  end.
End Statements.

End En.

(** ** The Chinese-language converter ([tmp.py]) *)

Module Zh.

(** The local list [blocks] of [get_unicode_block], in source order. *)
Definition blocks : list block_range :=
  [ (0x0000, 0x007F, "基本拉丁文");
    (0x0080, 0x00FF, "拉丁文补充-1");
    (0x0100, 0x017F, "拉丁文扩展-A");
    (0x0180, 0x024F, "拉丁文扩展-B");
    (0x0370, 0x03FF, "希腊文及科普特文");
    (0x0400, 0x04FF, "西里尔文");
    (0x0500, 0x052F, "西里尔文补充");
    (0x0530, 0x058F, "亚美尼亚文");
    (0x0590, 0x05FF, "希伯来文");
    (0x0600, 0x06FF, "阿拉伯文");
    (0x0700, 0x074F, "叙利亚文");
    (0x0750, 0x077F, "阿拉伯文补充");
    (0x0780, 0x07BF, "它拿文");
    (0x0800, 0x083F, "撒马利亚文");
    (0x0840, 0x085F, "曼达文");
    (0x0860, 0x086F, "叙利亚文补充");
    (0x08A0, 0x08FF, "阿拉伯文扩展-A");
    (0x0900, 0x097F, "天城文");
    (0x0980, 0x09FF, "孟加拉文");
    (0x0A00, 0x0A7F, "古木基文");
    (0x0A80, 0x0AFF, "古吉拉特文");
    (0x0B00, 0x0B7F, "奥里亚文");
    (0x0B80, 0x0BFF, "泰米尔文");
    (0x0C00, 0x0C7F, "泰卢固文");
    (0x0C80, 0x0CFF, "卡纳达文");
    (0x0D00, 0x0D7F, "马拉雅拉姆文");
    (0x0D80, 0x0DFF, "僧伽罗文");
    (0x0E00, 0x0E7F, "泰文");
    (0x0E80, 0x0EFF, "老挝文");
    (0x0F00, 0x0FFF, "藏文");
    (0x1000, 0x109F, "缅甸文");
    (0x10A0, 0x10FF, "格鲁吉亚文");
    (0x1100, 0x11FF, "谚文兼容字母");
    (0x1200, 0x137F, "埃塞俄比亚文");
    (0x1380, 0x139F, "埃塞俄比亚文补充");
    (0x13A0, 0x13FF, "切罗基文");
    (0x1400, 0x167F, "统一加拿大原住民音节文字");
    (0x1680, 0x169F, "欧甘文");
    (0x16A0, 0x16FF, "如尼文");
    (0x1700, 0x171F, "塔加拉文");
    (0x1720, 0x173F, "哈努诺文");
    (0x1740, 0x175F, "布希德文");
    (0x1760, 0x177F, "塔格班瓦文");
    (0x1780, 0x17FF, "高棉文");
    (0x1800, 0x18AF, "蒙古文");
    (0x18B0, 0x18FF, "统一加拿大原住民音节文字扩展");
    (0x1900, 0x194F, "林布文");
    (0x1950, 0x197F, "德宏傣文");
    (0x1980, 0x19DF, "新傣仂文");
    (0x19E0, 0x19FF, "高棉符号");
    (0x1A00, 0x1A1F, "布吉文");
    (0x1A20, 0x1AAF, "兰纳文");
    (0x1AB0, 0x1AFF, "组合变音标记扩展");
    (0x1B00, 0x1B7F, "巴厘文");
    (0x1B80, 0x1BBF, "巽他文");
    (0x1BC0, 0x1BFF, "巴塔克文");
    (0x1C00, 0x1C4F, "雷布查文");
    (0x1C50, 0x1C7F, "桑塔利文");
    (0x1C80, 0x1C8F, "西里尔文扩展-C");
    (0x1C90, 0x1CBF, "格鲁吉亚文扩展");
    (0x1CC0, 0x1CCF, "巽他文补充");
    (0x1CD0, 0x1CFF, "吠陀扩展");
    (0x1D00, 0x1D7F, "音标扩展");
    (0x1D80, 0x1DBF, "音标扩展补充");
    (0x1DC0, 0x1DFF, "组合变音标记补充");
    (0x1E00, 0x1EFF, "拉丁文扩展附加");
    (0x1F00, 0x1FFF, "希腊文扩展");
    (0x2000, 0x206F, "常用标点");
    (0x2070, 0x209F, "上标和下标");
    (0x20A0, 0x20CF, "货币符号");
    (0x20D0, 0x20FF, "组合用符号");
    (0x2100, 0x214F, "字母式符号");
    (0x2150, 0x218F, "数字形式");
    (0x2190, 0x21FF, "箭头");
    (0x2200, 0x22FF, "数学运算符");
    (0x2300, 0x23FF, "杂项技术符号");
    (0x2400, 0x243F, "控制图片");
    (0x2440, 0x245F, "光学识别符");
    (0x2460, 0x24FF, "带圈字母数字");
    (0x2500, 0x257F, "制表符");
    (0x2580, 0x259F, "方块元素");
    (0x25A0, 0x25FF, "几何图形");
    (0x2600, 0x26FF, "杂项符号");
    (0x2700, 0x27BF, "印刷符号");
    (0x27C0, 0x27EF, "杂项数学符号-A");
    (0x27F0, 0x27FF, "补充箭头-A");
    (0x2800, 0x28FF, "盲文点字模型");
    (0x2900, 0x297F, "补充箭头-B");
    (0x2980, 0x29FF, "杂项数学符号-B");
    (0x2A00, 0x2AFF, "补充数学运算符");
    (0x2B00, 0x2BFF, "杂项符号和箭头");
    (0x2C00, 0x2C5F, "格拉哥里文");
    (0x2C60, 0x2C7F, "拉丁文扩展-C");
    (0x2C80, 0x2CFF, "科普特文");
    (0x2D00, 0x2D2F, "格鲁吉亚文补充");
    (0x2D30, 0x2D7F, "提非纳文");
    (0x2D80, 0x2DDF, "埃塞俄比亚文扩展");
    (0x2DE0, 0x2DFF, "西里尔文扩展-A");
    (0x2E00, 0x2E7F, "补充标点");
    (0x2E80, 0x2EFF, "中日韩汉字部首补充");
    (0x2F00, 0x2FDF, "康熙部首");
    (0x2FF0, 0x2FFF, "表意文字描述字符");
    (0x3000, 0x303F, "中日韩符号和标点");
    (0x3040, 0x309F, "日文平假名");
    (0x30A0, 0x30FF, "日文片假名");
    (0x3100, 0x312F, "注音字母");
    (0x3130, 0x318F, "谚文兼容字母");
    (0x3190, 0x319F, "汉文注释标志");
    (0x31A0, 0x31BF, "注音字母扩展");
    (0x31C0, 0x31EF, "中日韩笔画");
    (0x31F0, 0x31FF, "日文片假名拼音扩展");
    (0x3200, 0x32FF, "带圈中日韩字母和月份");
    (0x3300, 0x33FF, "中日韩兼容字符");
    (0x3400, 0x4DBF, "中日韩统一表意文字扩展A");
    (0x4DC0, 0x4DFF, "易经六十四卦符号");
    (0x4E00, 0x9FFF, "中日韩统一表意文字");
    (0xA000, 0xA48F, "彝文音节");
    (0xA490, 0xA4CF, "彝文字根");
    (0xA4D0, 0xA4FF, "老傈僳文");
    (0xA500, 0xA63F, "瓦伊文");
    (0xA640, 0xA69F, "西里尔文扩展-B");
    (0xA6A0, 0xA6FF, "巴穆姆文");
    (0xA700, 0xA71F, "声调修饰字母");
    (0xA720, 0xA7FF, "拉丁文扩展-D");
    (0xA800, 0xA82F, "锡尔赫特文");
    (0xA830, 0xA83F, "通用印度数字格式");
    (0xA840, 0xA87F, "八思巴文");
    (0xA880, 0xA8DF, "索拉什特拉文");
    (0xA8E0, 0xA8FF, "天城文扩展");
    (0xA900, 0xA92F, "克耶文");
    (0xA930, 0xA95F, "勒姜文");
    (0xA960, 0xA97F, "谚文扩展-A");
    (0xA980, 0xA9DF, "爪哇文");
    (0xA9E0, 0xA9FF, "缅甸文扩展-B");
    (0xAA00, 0xAA5F, "占文");
    (0xAA60, 0xAA7F, "缅甸文扩展-A");
    (0xAA80, 0xAADF, "越南傣文");
    (0xAAE0, 0xAAFF, "梅泰文扩展");
    (0xAB00, 0xAB2F, "埃塞俄比亚文扩展-A");
    (0xAB30, 0xAB6F, "拉丁文扩展-E");
    (0xAB70, 0xABBF, "切罗基文补充");
    (0xABC0, 0xABFF, "曼尼普尔文");
    (0xAC00, 0xD7AF, "谚文音节");
    (0xD7B0, 0xD7FF, "谚文字母扩展-B");
    (0xF900, 0xFAFF, "中日韩兼容表意文字");
    (0xFB00, 0xFB4F, "字母表达形式");
    (0xFB50, 0xFDFF, "阿拉伯表达形式-A");
    (0xFE00, 0xFE0F, "变体选择符");
    (0xFE10, 0xFE1F, "竖排形式");
    (0xFE20, 0xFE2F, "组合用半符号");
    (0xFE30, 0xFE4F, "中日韩兼容形式");
    (0xFE50, 0xFE6F, "小写变体形式");
    (0xFE70, 0xFEFF, "阿拉伯表达形式-B");
    (0xFF00, 0xFFEF, "半形及全形形式");
    (0xFFF0, 0xFFFF, "特殊");
    (0x10000, 0x1007F, "线性文字B音节文字");
    (0x10080, 0x100FF, "线性文字B表意文字");
    (0x10100, 0x1013F, "爱琴海数字");
    (0x10140, 0x1018F, "古希腊数字");
    (0x10190, 0x101CF, "古代符号");
    (0x101D0, 0x101FF, "费斯托斯圆盘");
    (0x10280, 0x1029F, "吕基亚文");
    (0x102A0, 0x102DF, "卡里亚文");
    (0x102E0, 0x102FF, "科普特历法");
    (0x10300, 0x1032F, "古意大利文");
    (0x10330, 0x1034F, "哥特文");
    (0x10350, 0x1037F, "古彼尔姆文");
    (0x10380, 0x1039F, "乌加里特文");
    (0x103A0, 0x103DF, "古波斯文");
    (0x10400, 0x1044F, "德瑟雷特文");
    (0x10450, 0x1047F, "肃伯纳文");
    (0x10480, 0x104AF, "奥斯曼亚文");
    (0x104B0, 0x104FF, "欧塞奇文");
    (0x10500, 0x1052F, "爱尔巴桑文");
    (0x10530, 0x1056F, "高加索阿尔巴尼亚文");
    (0x10600, 0x1077F, "线性文字A");
    (0x10800, 0x1083F, "塞浦路斯音节文字");
    (0x10840, 0x1085F, "帝国亚拉姆文");
    (0x10860, 0x1087F, "帕尔迈拉文");
    (0x10880, 0x108AF, "纳巴泰文");
    (0x108E0, 0x108FF, "哈特拉文");
    (0x10900, 0x1091F, "腓尼基文");
    (0x10920, 0x1093F, "吕底亚文");
    (0x10980, 0x1099F, "麦罗埃文圣书体");
    (0x109A0, 0x109FF, "麦罗埃文草书体");
    (0x10A00, 0x10A5F, "佉卢文");
    (0x10A60, 0x10A7F, "古南阿拉伯文");
    (0x10A80, 0x10A9F, "古北阿拉伯文");
    (0x10AC0, 0x10AFF, "曼尼安文");
    (0x10B00, 0x10B3F, "阿维斯陀文");
    (0x10B40, 0x10B5F, "碑铭帕提亚文");
    (0x10B60, 0x10B7F, "碑铭巴列维文");
    (0x10B80, 0x10BAF, "诗篇巴列维文");
    (0x10C00, 0x10C4F, "古突厥文");
    (0x10C80, 0x10CFF, "古匈牙利文");
    (0x10E60, 0x10E7F, "卢米符号数字");
    (0x11000, 0x1107F, "婆罗米文");
    (0x11080, 0x110CF, "凯提文");
    (0x110D0, 0x110FF, "索拉桑朋文");
    (0x11100, 0x1114F, "查克马文");
    (0x11150, 0x1117F, "马哈贾尼文");
    (0x11180, 0x111DF, "夏拉达文");
    (0x111E0, 0x111FF, "信德文");
    (0x11200, 0x1124F, "格兰塔文");
    (0x11280, 0x112AF, "古吉拉特文");
    (0x112B0, 0x112FF, "索拉什特拉文");
    (0x11300, 0x1137F, "泰米尔文");
    (0x11400, 0x1147F, "泰卢固文");
    (0x11480, 0x114DF, "埃塞俄比亚文扩展");
    (0x11580, 0x115FF, "悉昙文");
    (0x11600, 0x1165F, "蒙古文补充");
    (0x11660, 0x1167F, "加拿大原住民音节文字扩展");
    (0x11680, 0x116CF, "泰克里文");
    (0x11800, 0x1184F, "瓦郎奇蒂文");
    (0x118A0, 0x118FF, "万秋文");
    (0x11AC0, 0x11AFF, "蒲甘文");
    (0x11C00, 0x11C6F, "拜克舒基文");
    (0x11C70, 0x11CBF, "玛钦文");
    (0x12000, 0x123FF, "楔形文字");
    (0x12400, 0x1247F, "楔形文字数字和标点");
    (0x12480, 0x1254F, "早期王朝楔形文字");
    (0x13000, 0x1342F, "埃及圣书体");
    (0x13430, 0x1343F, "埃及圣书体格式控制");
    (0x14400, 0x1467F, "安纳托利亚象形文字");
    (0x16800, 0x16A3F, "巴姆穆文字补充");
    (0x16A40, 0x16A6F, "穆塔文");
    (0x16AD0, 0x16AFF, "巴萨瓦赫文");
    (0x16B00, 0x16B8F, "帕西安文");
    (0x16F00, 0x16F9F, "柏格理苗文");
    (0x16FE0, 0x16FFF, "表意符号和标点");
    (0x17000, 0x187FF, "中日韩统一表意文字扩展B");
    (0x18800, 0x18AFF, "中日韩统一表意文字扩展C");
    (0x1B000, 0x1B0FF, "日文假名补充");
    (0x1B100, 0x1B12F, "日文假名扩展-A");
    (0x1B170, 0x1B2FF, "女书");
    (0x1BC00, 0x1BC9F, "杜普洛伊速记");
    (0x1BCA0, 0x1BCAF, "格式控制符号的速记");
    (0x1D000, 0x1D0FF, "拜占庭音乐符号");
    (0x1D100, 0x1D1FF, "音乐符号");
    (0x1D200, 0x1D24F, "古希腊音乐记号");
    (0x1D300, 0x1D35F, "太玄经符号");
    (0x1D360, 0x1D37F, "算筹");
    (0x1D400, 0x1D7FF, "数学字母数字符号");
    (0x1E800, 0x1E8DF, "门德文");
    (0x1E900, 0x1E95F, "阿德拉姆文");
    (0x1EE00, 0x1EEFF, "阿拉伯数学字母符号");
    (0x1F000, 0x1F02F, "麻将牌");
    (0x1F030, 0x1F09F, "多米诺骨牌");
    (0x1F0A0, 0x1F0FF, "扑克牌");
    (0x1F100, 0x1F1FF, "带圈字母数字补充");
    (0x1F200, 0x1F2FF, "封闭式表意文字补充");
    (0x1F300, 0x1F5FF, "杂项符号和象形文字");
    (0x1F600, 0x1F64F, "表情符号");
    (0x1F650, 0x1F67F, "装饰符号");
    (0x1F680, 0x1F6FF, "交通和地图符号");
    (0x1F700, 0x1F77F, "炼金术符号");
    (0x1F780, 0x1F7FF, "几何图形扩展");
    (0x1F800, 0x1F8FF, "补充箭头-C");
    (0x1F900, 0x1F9FF, "补充符号和象形文字");
    (0x20000, 0x2A6DF, "中日韩统一表意文字扩展C");
    (0x2A700, 0x2B73F, "中日韩统一表意文字扩展D");
    (0x2B740, 0x2B81F, "中日韩统一表意文字扩展E");
    (0x2B820, 0x2CEAF, "中日韩统一表意文字扩展F");
    (0x2CEB0, 0x2EBEF, "中日韩统一表意文字扩展G");
    (0x2F800, 0x2FA1F, "中日韩兼容表意文字补充");
    (0xE0000, 0xE007F, "标签");
    (0xE0100, 0xE01EF, "变体选择符补充");
    (0xF0000, 0xFFFFF, "专用区（补充专用区）");
    (0x100000, 0x10FFFF, "辅助专用区") ].

(** The [for] loop of [get_unicode_block] over a table. *)
Fixpoint lookup_block (table : list block_range) (code_point : Z) : string :=
  match table with
  | [] => "其他区块"
  | (start, end_, name) :: rest =>
      if (start <=? code_point) && (code_point <=? end_) then name
      else lookup_block rest code_point
  end.

(** [get_unicode_block]: the table is the local list [blocks], unsorted. *)
Definition get_unicode_block (code_point : Z) : string :=
  lookup_block blocks code_point.

(** The dict appended to [glyphs_data]; the keys of the source are, in
    order: 字符, Unicode编码, Unicode名称, 区块, 十进制码点, 字符类别. *)
Record glyph_row : Type := mk_glyph_row {
  Character : pystr;
  Unicode : string;
  UnicodeName : string;
  Block : string;
  CodePoint : Z;
  Category : string
}.

(** A row of the frame after the columns 十进制码点 and 字符类别 are dropped. *)
Record table_row : Type := mk_table_row {
  col_Character : pystr;
  col_Unicode : string;
  col_UnicodeName : string;
  col_Block : string
}.

Section WithHost.
Context `{Host}.

Definition get_unicode_name (char : pychar) : string :=
  match unicodedata_name char with
  | Some name => name
  | None => "未命名字符"
  end.

(** [flag and unicodedata.category(char).startswith('C')]: the category is
    looked up only when [flag] holds. *)
Definition and_category_startswith_C {S : Type} (flag : bool) (char : pychar)
  : M S bool :=
  if flag then (category <- category_call char ;; ret (startswith_C category))
  else ret false.

(** The body of the [try] inside the loop of [extract_font_glyphs]. *)
Definition loop_body (include_control_chars show_preview : bool)
  (item : Z * string) : M (loop_state glyph_row) unit :=
  let '(code_point, glyph_name) := item in
  incr_processed ;;
  char <- lift (chr code_point) ;;
  skip <- and_category_startswith_C (negb include_control_chars) char ;;
  if skip then continue
  else
    let display_char := [char] in
    substitute <- and_category_startswith_C (negb show_preview) char ;;
    let display_char := if substitute then [0x25A1] else display_char in
    let unicode_name := get_unicode_name char in
    let unicode_block := get_unicode_block code_point in
    let unicode_hex := ("U+" ++ format_04X code_point)%string in
    category <- category_call char ;;
    append {| Character := display_char;
              Unicode := unicode_hex;
              UnicodeName := unicode_name;
              Block := unicode_block;
              CodePoint := code_point;
              Category := category |}.

Definition extract_font_glyphs (cmap : cmap_t)
  (include_control_chars show_preview : bool) : result (list glyph_row) :=
  match cmap with
  | [] => Err (Exception "无法从字体文件中提取字符映射")
  | _ :: _ =>
      Ok (glyphs_data
            (for_items (loop_body include_control_chars show_preview)
               cmap (mk_loop_state [] 0)))
  end.
End WithHost.

Definition drop_columns (r : glyph_row) : table_row :=
  {| col_Character := Character r;
     col_Unicode := Unicode r;
     col_UnicodeName := UnicodeName r;
     col_Block := Block r |}.

Definition save_table (data : list glyph_row) : list table_row :=
  map drop_columns (sort_values CodePoint data).

Inductive conversion : Type :=
| ConversionFailed (e : exn)
| NoCharacters
| Saved (table : list table_row).

(** [convert_thread] from the font's cmap on; [write] is the writer of
    [save_table], which runs inside the [try]: when it raises, the thread
    ends in the error message. *)
Definition convert_thread `{Host} (write : list table_row -> option exn)
  (cmap : cmap_t) (include_control_chars show_preview : bool) : conversion :=
  match extract_font_glyphs cmap include_control_chars show_preview with
  | Err e => ConversionFailed e
  | Ok [] => NoCharacters
  | Ok glyphs_data =>
      let table := save_table glyphs_data in
      match write table with
      | Some e => ConversionFailed e
      | None => Saved table
      end
  end.

(** [self.supported_table_formats] *)
Definition supported_table_formats : list (string * string) :=
  [ ("CSV 文件", "csv");
    ("Excel 文件", "xlsx");
    ("JSON 文件", "json");
    ("HTML 表格", "html");
    ("Markdown 表格", "md") ].

(** The [if]/[elif] chain of [save_table] on [table_format]. *)
Definition select_writer (table_format : string) : result writer :=
  if (table_format =? "csv")%string then Ok to_csv
  else if (table_format =? "xlsx")%string then Ok to_excel
  else if (table_format =? "json")%string then Ok to_json
  else if (table_format =? "html")%string then Ok to_html
  else if (table_format =? "md")%string then Ok to_markdown
  else Err ValueError.

(** *** Closed forms for the statements *)

Section Statements.
Context `{Host}.

(** A code point is retained when [chr] accepts it, every call of
    [unicodedata.category] returns, and the control-character filter does
    not execute [continue]. *)
Definition retained (include_control_chars : bool) (code_point : Z) : bool :=
  match chr code_point with
  | Ok char =>
      match unicodedata_category char with
      | Some category =>
          negb (negb include_control_chars && startswith_C category)
      | None => false
      end
  | Err _ => false
  end.

(** The row that one pass of the loop body appends, if any. *)
Definition row_of (include_control_chars show_preview : bool)
  (item : Z * string) : option glyph_row :=
  let '(code_point, glyph_name) := item in
  if retained include_control_chars code_point then
    match unicodedata_category code_point with
    | Some category =>
        Some {| Character :=
                  if negb show_preview && startswith_C category then [0x25A1]
                  else [code_point];
                Unicode := ("U+" ++ format_04X code_point)%string;
                UnicodeName := get_unicode_name code_point;
                Block := get_unicode_block code_point;
                CodePoint := code_point;
                Category := category |}
    | None => None
    end
  else None.

(** The columns of a row other than [Character]. *)
Definition other_columns (r : glyph_row) : string * string * string * Z * string :=
  (Unicode r, UnicodeName r, Block r, CodePoint r, Category r).

Definition rows_of (include_control_chars show_preview : bool)
  (cmap : cmap_t) : list glyph_row :=
  flat_map
    (fun item => option_list (row_of include_control_chars show_preview item))
    cmap.

Definition enrich (cmap : cmap_t) (include_control_chars show_preview : bool)
  : result (list glyph_row) :=
  match extract_font_glyphs cmap include_control_chars show_preview with
  | Ok glyphs_data => Ok (sort_values CodePoint glyphs_data)
  | Err e => Err e
  end.
End Statements.

End Zh.

(** ** Auxiliary definitions for the statements *)

(** Value of a string of uppercase hexadecimal digits; [None] on any other
    character and on the empty string. *)
Definition hex_digit_value (c : ascii) : option Z :=
  let n := Z.of_nat (nat_of_ascii c) in
  if (48 <=? n) && (n <=? 57) then Some (n - 48)
  else if (65 <=? n) && (n <=? 70) then Some (n - 55)
  else None.

Fixpoint parse_hex_from (acc : Z) (s : string) : option Z :=
  match s with
  | EmptyString => Some acc
  | String c rest =>
      match hex_digit_value c with
      | Some d => parse_hex_from (acc * 16 + d) rest
      | None => None
      end
  end.

Definition parse_hex (s : string) : option Z :=
  match s with
  | EmptyString => None
  | _ => parse_hex_from 0 s
  end.

(** A table whose ranges lie inside the Unicode code space and whose names
    are not empty. *)
Definition range_ok (r : block_range) : bool :=
  (0 <=? range_start r) && (range_end r <=? 0x10FFFF)
  && negb (range_name r =? EmptyString)%string.

Definition table_ok (table : list block_range) : bool := forallb range_ok table.

(** What the spec asks of the text of a code point: U+, then uppercase
    hexadecimal digits of that value, [k + 1] being the number of digits of
    the value and the text having four digits or, if more, that many. *)
Definition formatted_codepoint (text : string) (code_point : Z) : Prop :=
  exists (digits : string) (k : nat),
    text = ("U+" ++ digits)%string /\
    parse_hex digits = Some code_point /\
    String.length digits = Nat.max 4 (S k) /\
    ((code_point = 0 /\ k = O)
     \/ 16 ^ Z.of_nat k <= code_point < 16 ^ Z.of_nat (S k)).

(** Two ranges that cannot disagree on a code point: they are disjoint or
    carry the same name. *)
Definition compatible (r1 r2 : block_range) : bool :=
  (range_end r1 <? range_start r2) || (range_end r2 <? range_start r1)
  || (range_name r1 =? range_name r2)%string.

Definition unambiguous (table : list block_range) : bool :=
  forallb (fun r1 => forallb (compatible r1) table) table.

(** No range of the table meets the interval from [lo] to [hi]. *)
Definition misses (lo hi : Z) (table : list block_range) : bool :=
  forallb (fun r => (range_end r <? lo) || (hi <? range_start r)) table.

(** Every range of the first table is, with the same bounds, a range of the
    second. *)
Definition same_bounds (r1 r2 : block_range) : bool :=
  (range_start r1 =? range_start r2) && (range_end r1 =? range_end r2).

Definition subtable (t1 t2 : list block_range) : bool :=
  forallb (fun r1 => existsb (same_bounds r1) t2) t1.

(** The code points that [chr] accepts. *)
Definition in_code_space (p : Z) : bool := (0 <=? p) && (p <=? 0x10FFFF).

(** A fragment of the Unicode character database for the examples: the C0
    and C1 controls, the surrogates, the basic Latin letters and the CJK
    unified ideographs carry their categories; any other code point is
    treated as unassigned. *)
Definition sample_category (c : pychar) : option string :=
  if (c <=? 0x1F) || ((0x7F <=? c) && (c <=? 0x9F)) then Some "Cc"
  else if (0xD800 <=? c) && (c <=? 0xDFFF) then Some "Cs"
  else if (0x41 <=? c) && (c <=? 0x5A) then Some "Lu"
  else if (0x61 <=? c) && (c <=? 0x7A) then Some "Ll"
  else if (0x4E00 <=? c) && (c <=? 0x9FFF) then Some "Lo"
  else Some "Cn".

Definition sample_name (c : pychar) : option string :=
  if c =? 0x41 then Some "LATIN CAPITAL LETTER A"
  else if c =? 0x4E2D then Some "CJK UNIFIED IDEOGRAPH-4E2D"
  else None.

Definition sample_host : Host :=
  {| unicodedata_category := sample_category;
     unicodedata_name := sample_name;
     font_getGlyphName := fun _ => None |}.

(** Writers that write every frame, for the examples. *)
Definition writers_succeed (w : writer) (table : list En.table_row)
  : option exn := None.

(** A host whose category lookup raises on every character. *)
Definition failing_host : Host :=
  {| unicodedata_category := fun _ => None;
     unicodedata_name := sample_name;
     font_getGlyphName := fun _ => None |}.

(** * Block lookup *)

(** Both lookups are a search for the first range that contains the code
    point; they differ in the sentinel only. *)
Lemma en_lookup_find (table : list block_range) (p : Z) :
  En.get_unicode_block table p =
  match find (fun r => in_range r p) table with
  | Some r => range_name r
  | None => "Unassigned"
  end.
Proof.
  induction table as [|[[s e] n] rest IH]; simpl; [reflexivity|].
  unfold in_range at 1, range_start, range_end, range_name; simpl.
  destruct ((s <=? p) && (p <=? e)); [reflexivity | exact IH].
Qed.

Lemma zh_lookup_find (table : list block_range) (p : Z) :
  Zh.lookup_block table p =
  match find (fun r => in_range r p) table with
  | Some r => range_name r
  | None => "其他区块"
  end.
Proof.
  induction table as [|[[s e] n] rest IH]; simpl; [reflexivity|].
  unfold in_range at 1, range_start, range_end, range_name; simpl.
  destruct ((s <=? p) && (p <=? e)); [reflexivity | exact IH].
Qed.

Lemma in_range_iff (r : block_range) (p : Z) :
  in_range r p = true <-> range_start r <= p <= range_end r.
Proof.
  unfold in_range. rewrite andb_true_iff, !Z.leb_le. tauto.
Qed.

(** [find] splits the list at its first hit. *)
Lemma find_split {A : Type} (f : A -> bool) (l : list A) :
  match find f l with
  | Some x => exists pre post,
      l = pre ++ x :: post /\ f x = true /\ forall y, In y pre -> f y = false
  | None => forall y, In y l -> f y = false
  end.
Proof.
  induction l as [|a l IH]; simpl.
  - intros y [].
  - destruct (f a) eqn:Fa.
    + exists [], l. repeat split; auto. intros y [].
    + destruct (find f l) as [x|].
      * destruct IH as (pre & post & -> & Fx & Hpre).
        exists (a :: pre), post. repeat split; auto.
        intros y [<-|Hy]; auto.
      * intros y [<-|Hy]; auto.
Qed.

Lemma range_ok_inv (r : block_range) :
  range_ok r = true ->
  0 <= range_start r /\ range_end r <= 0x10FFFF /\ range_name r <> EmptyString.
Proof.
  unfold range_ok. rewrite !andb_true_iff, negb_true_iff, !Z.leb_le.
  intros [[H1 H2] H3]. repeat split; auto.
  intros E. rewrite E in H3. discriminate.
Qed.

Lemma find_table_ok (table : list block_range) (p : Z) :
  table_ok table = true ->
  match find (fun r => in_range r p) table with
  | Some r => range_name r <> EmptyString /\ 0 <= p <= 0x10FFFF
  | None => True
  end.
Proof.
  intros Hok. pose proof (find_split (fun r => in_range r p) table) as Hf.
  destruct (find _ table) as [r|]; [|exact I].
  destruct Hf as (pre & post & -> & Hin & _).
  unfold table_ok in Hok. rewrite forallb_forall in Hok.
  destruct (range_ok_inv r) as (H1 & H2 & H3).
  { apply Hok. apply in_or_app. right. left. reflexivity. }
  apply in_range_iff in Hin. split; [exact H3 | lia].
Qed.

Lemma en_table_ok : table_ok En.load_unicode_blocks = true.
Proof. vm_compute. reflexivity. Qed.

Lemma zh_table_ok : table_ok Zh.blocks = true.
Proof. vm_compute. reflexivity. Qed.

(** C1: [get_unicode_block] returns the name of the first range, in the
    order of the table, whose closed interval [start..end] contains the code
    point, and the sentinel of the program when no range contains it; this
    holds for every table and both converters.  For the table with the one
    range (0x41, 0x5A, Test) the two end points are found and their outer
    neighbours are not. *)
Theorem C1_lookup_first_match :
  (forall (table : list block_range) (p : Z),
      (exists pre start end_ name post,
          table = pre ++ (start, end_, name) :: post /\
          start <= p <= end_ /\
          (forall r, In r pre -> ~ (range_start r <= p <= range_end r)) /\
          En.get_unicode_block table p = name /\
          Zh.lookup_block table p = name)
      \/
      ((forall r, In r table -> ~ (range_start r <= p <= range_end r)) /\
       En.get_unicode_block table p = "Unassigned" /\
       Zh.lookup_block table p = "其他区块"))
  /\
  (let table := [(0x0041, 0x005A, "Test")] in
   En.get_unicode_block table 0x0041 = "Test" /\
   En.get_unicode_block table 0x005A = "Test" /\
   En.get_unicode_block table 0x0040 <> "Test" /\
   En.get_unicode_block table 0x005B <> "Test" /\
   Zh.lookup_block table 0x0041 = "Test" /\
   Zh.lookup_block table 0x005A = "Test" /\
   Zh.lookup_block table 0x0040 <> "Test" /\
   Zh.lookup_block table 0x005B <> "Test").
Proof.
  split.
  - intros table p.
    rewrite en_lookup_find, zh_lookup_find.
    pose proof (find_split (fun r => in_range r p) table) as Hf.
    destruct (find _ table) as [[[s e] n]|].
    + left. destruct Hf as (pre & post & -> & Hin & Hpre).
      exists pre, s, e, n, post. apply in_range_iff in Hin.
      repeat split; try apply Hin.
      intros r Hr Hc. apply in_range_iff in Hc.
      rewrite (Hpre r Hr) in Hc. discriminate.
    + right. repeat split.
      intros r Hr Hc. apply in_range_iff in Hc.
      rewrite (Hf r Hr) in Hc. discriminate.
  - cbv zeta. repeat split; try reflexivity; vm_compute; discriminate.
Qed.

(** C7: on the tables of the two programs the lookup is a total function of
    an arbitrary integer; its result is never the empty string, and for an
    integer below 0 or above 0x10FFFF it is the sentinel. *)
Theorem C7_lookup_total :
  forall p : Z,
    En.get_unicode_block En.load_unicode_blocks p <> EmptyString /\
    Zh.get_unicode_block p <> EmptyString /\
    (0 <= p <= 0x10FFFF \/
     (En.get_unicode_block En.load_unicode_blocks p = "Unassigned" /\
      Zh.get_unicode_block p = "其他区块")).
Proof.
  intros p. unfold Zh.get_unicode_block.
  rewrite en_lookup_find, zh_lookup_find.
  pose proof (find_table_ok En.load_unicode_blocks p en_table_ok) as He.
  pose proof (find_table_ok Zh.blocks p zh_table_ok) as Hz.
  destruct (find _ En.load_unicode_blocks) as [r|];
    destruct (find _ Zh.blocks) as [r'|].
  - destruct He, Hz. repeat split; auto.
  - destruct He. repeat split; auto. discriminate.
  - destruct Hz. repeat split; auto. discriminate.
  - repeat split; try discriminate. right. split; reflexivity.
Qed.

(** * Sorting by an integer key *)

Section SortFacts.
Context {A : Type} (key : A -> Z).

Let key_ltb (x y : A) : bool := key x <? key y.
Let key_le (x y : A) : Prop := key x <= key y.
Let key_lt (x y : A) : Prop := key x < key y.

Lemma insert_sorted_perm (x : A) (l : list A) :
  Permutation (insert_sorted key_ltb x l) (x :: l).
Proof.
  induction l as [|y l IH]; simpl; [reflexivity|].
  destruct (key_ltb x y); [reflexivity|].
  rewrite IH. apply perm_swap.
Qed.

Lemma insert_sorted_sorted (x : A) (l : list A) :
  StronglySorted key_le l -> StronglySorted key_le (insert_sorted key_ltb x l).
Proof.
  induction l as [|y l IH]; simpl; intros Hs.
  - constructor; [constructor | constructor].
  - apply StronglySorted_inv in Hs. destruct Hs as [Hl Hy].
    unfold key_ltb at 1. destruct (Z.ltb_spec (key x) (key y)) as [Hlt|Hge].
    + constructor.
      * constructor; assumption.
      * constructor; [unfold key_le; lia|].
        eapply Forall_impl; [|exact Hy].
        unfold key_le. intros z Hz. lia.
    + constructor; [apply IH; exact Hl|].
      rewrite (insert_sorted_perm x l).
      constructor; [unfold key_le; lia | exact Hy].
Qed.

Lemma fold_insert_perm (l acc : list A) :
  Permutation (fold_left (fun a x => insert_sorted key_ltb x a) l acc)
    (acc ++ l).
Proof.
  revert acc. induction l as [|x l IH]; intros acc; simpl.
  - rewrite app_nil_r. reflexivity.
  - rewrite IH, insert_sorted_perm. apply Permutation_middle.
Qed.

Lemma fold_insert_sorted (l acc : list A) :
  StronglySorted key_le acc ->
  StronglySorted key_le (fold_left (fun a x => insert_sorted key_ltb x a) l acc).
Proof.
  revert acc. induction l as [|x l IH]; intros acc Hs; simpl; [exact Hs|].
  apply IH, insert_sorted_sorted, Hs.
Qed.

Lemma sort_values_perm (l : list A) : Permutation (sort_values key l) l.
Proof. unfold sort_values, stable_sort. apply (fold_insert_perm l []). Qed.

Lemma sort_values_sorted (l : list A) :
  StronglySorted key_le (sort_values key l).
Proof.
  unfold sort_values, stable_sort. apply fold_insert_sorted. constructor.
Qed.

Lemma sorted_nodup_strict (l : list A) :
  StronglySorted key_le l -> NoDup (map key l) -> StronglySorted key_lt l.
Proof.
  induction l as [|x l IH]; intros Hs Hn; [constructor|].
  apply StronglySorted_inv in Hs. destruct Hs as [Hl Hx].
  simpl in Hn. inversion Hn as [|k ks Hnotin Hn']; subst.
  constructor; [apply IH; assumption|].
  rewrite Forall_forall in Hx |- *. intros y Hy.
  specialize (Hx y Hy). unfold key_le in Hx. unfold key_lt.
  assert (key x <> key y).
  { intros E. apply Hnotin. rewrite E. apply in_map. exact Hy. }
  lia.
Qed.

Lemma strict_sorted_map (l : list A) :
  StronglySorted key_lt l -> StronglySorted Z.lt (map key l).
Proof.
  induction 1 as [|x l Hs IH Hx]; simpl; constructor; [exact IH|].
  rewrite Forall_forall in Hx |- *. intros k Hk.
  apply in_map_iff in Hk. destruct Hk as (y & <- & Hy). apply Hx, Hy.
Qed.

(** Distinct keys leave one sorted arrangement only: whatever algorithm
    the sort uses, its result is the list computed here. *)
Lemma strict_sorted_perm_eq (l1 l2 : list A) :
  StronglySorted key_lt l1 -> StronglySorted key_lt l2 ->
  Permutation l1 l2 -> l1 = l2.
Proof.
  revert l2. induction l1 as [|a l1 IH]; intros l2 H1 H2 Hp.
  - apply Permutation_nil in Hp. symmetry. exact Hp.
  - destruct l2 as [|b l2].
    { symmetry in Hp. apply Permutation_nil in Hp. discriminate. }
    apply StronglySorted_inv in H1. destruct H1 as [H1 Ha].
    apply StronglySorted_inv in H2. destruct H2 as [H2 Hb].
    rewrite Forall_forall in Ha, Hb.
    assert (Hab : a = b).
    { assert (In a (b :: l2)) as [E|Ia].
      { eapply Permutation_in; [exact Hp | left; reflexivity]. }
      - symmetry. exact E.
      - assert (In b (a :: l1)) as [E|Ib].
        { eapply Permutation_in; [symmetry; exact Hp | left; reflexivity]. }
        + exact E.
        + specialize (Ha b Ib). specialize (Hb a Ia).
          unfold key_lt in Ha, Hb. lia. }
    subst b. f_equal. apply IH; try assumption.
    eapply Permutation_cons_inv. exact Hp.
Qed.

Lemma sort_values_strict (l : list A) :
  NoDup (map key l) -> StronglySorted Z.lt (map key (sort_values key l)).
Proof.
  intros Hn. apply strict_sorted_map, sorted_nodup_strict.
  - apply sort_values_sorted.
  - eapply Permutation_NoDup; [|exact Hn].
    apply Permutation_map. symmetry. apply sort_values_perm.
Qed.

Lemma sort_values_unique (l l' : list A) :
  NoDup (map key l) -> Permutation l' l -> StronglySorted key_le l' ->
  l' = sort_values key l.
Proof.
  intros Hn Hp Hs. apply strict_sorted_perm_eq.
  - apply sorted_nodup_strict; [exact Hs|].
    eapply Permutation_NoDup; [|exact Hn].
    apply Permutation_map. symmetry. exact Hp.
  - apply sorted_nodup_strict; [apply sort_values_sorted|].
    eapply Permutation_NoDup; [|exact Hn].
    apply Permutation_map. symmetry. apply sort_values_perm.
  - rewrite Hp. symmetry. apply sort_values_perm.
Qed.
End SortFacts.

Lemma Permutation_filter {A : Type} (f : A -> bool) (l l' : list A) :
  Permutation l l' -> Permutation (filter f l) (filter f l').
Proof.
  induction 1 as [|x l l' Hp IH|x y l|l l' l'' H1 IH1 H2 IH2]; simpl.
  - constructor.
  - destruct (f x); [constructor|]; exact IH.
  - destruct (f x), (f y); try reflexivity. apply perm_swap.
  - etransitivity; eassumption.
Qed.

(** * The loop *)

Section ForItems.
Context {I R : Type}.
Variable body : I -> M (loop_state R) unit.
Variable row : I -> option R.
Hypothesis body_spec : forall item s,
  snd (body item s) =
  mk_loop_state (glyphs_data s ++ option_list (row item)) (processed s + 1).

(** The loop appends, in the order of the items, the rows that the passes
    produce, and counts every item. *)
Lemma for_items_spec (items : list I) (s : loop_state R) :
  for_items body items s =
  mk_loop_state (glyphs_data s ++ flat_map (fun i => option_list (row i)) items)
    (processed s + Z.of_nat (List.length items)).
Proof.
  revert s. induction items as [|item rest IH]; intros s.
  - cbn [for_items flat_map List.length]. rewrite app_nil_r, Z.add_0_r.
    destruct s; reflexivity.
  - cbn [for_items flat_map List.length]. rewrite IH, body_spec.
    cbn [glyphs_data processed]. rewrite <- app_assoc. f_equal. lia.
Qed.
End ForItems.

(** * The loop bodies of the two converters *)

Lemma chr_in_range (p : Z) : 0 <= p <= 0x10FFFF -> chr p = Ok p.
Proof.
  intros Hp. unfold chr.
  destruct (Z.ltb_spec p (- 2 ^ 31)); [lia|].
  destruct (Z.ltb_spec (2 ^ 31 - 1) p); [lia|].
  destruct (Z.ltb_spec p 0); [lia|].
  destruct (Z.ltb_spec 0x10FFFF p); [lia|]. reflexivity.
Qed.

Lemma chr_out_of_range (p : Z) :
  p < 0 \/ 0x10FFFF < p -> exists e, chr p = Err e.
Proof.
  intros Hp. unfold chr.
  destruct ((p <? - 2 ^ 31) || (2 ^ 31 - 1 <? p)); [eexists; reflexivity|].
  destruct (Z.ltb_spec p 0); [eexists; reflexivity|].
  destruct (Z.ltb_spec 0x10FFFF p); [eexists; reflexivity|]. lia.
Qed.

Lemma chr_Ok_inv (p : Z) (c : pychar) :
  chr p = Ok c -> c = p /\ 0 <= p <= 0x10FFFF.
Proof.
  unfold chr.
  destruct ((p <? - 2 ^ 31) || (2 ^ 31 - 1 <? p)); [discriminate|].
  destruct (Z.ltb_spec p 0); [discriminate|].
  destruct (Z.ltb_spec 0x10FFFF p); [discriminate|].
  intros E. injection E as <-. split; [reflexivity | lia].
Qed.

Ltac run_body :=
  unfold bind, incr_processed, append, modify, lift, try_except,
    category_call, continue, ret; cbn [fst snd glyphs_data processed].

Section EnLoop.
Context `{Host}.
Variable unicode_blocks : list block_range.

Lemma en_loop_body_spec (inc show : bool) (item : Z * string)
  (s : loop_state En.glyph_row) :
  snd (En.loop_body unicode_blocks inc show item s) =
  mk_loop_state
    (glyphs_data s ++ option_list (En.row_of unicode_blocks inc show item))
    (processed s + 1).
Proof.
  destruct item as [p g]. unfold En.loop_body, En.row_of, En.retained.
  run_body.
  destruct (chr p) as [c|e] eqn:E.
  - apply chr_Ok_inv in E. destruct E as [-> _].
    unfold En.computed_category; run_body.
    destruct (unicodedata_category p) as [cat|]; run_body;
      destruct (negb inc && startswith_C _); cbn;
      rewrite ?app_nil_r; reflexivity.
  - cbn. rewrite app_nil_r. reflexivity.
Qed.

Lemma en_extract_spec (cmap : cmap_t) (inc show : bool) :
  cmap <> [] ->
  En.extract_font_glyphs unicode_blocks cmap inc show =
  Ok (En.rows_of unicode_blocks inc show cmap).
Proof.
  intros Hne. unfold En.extract_font_glyphs.
  destruct cmap as [|i rest]; [contradiction|].
  rewrite (for_items_spec _ _ (en_loop_body_spec inc show)).
  reflexivity.
Qed.

Lemma en_enrich_spec (cmap : cmap_t) (inc show : bool) :
  cmap <> [] ->
  En.enrich unicode_blocks cmap inc show =
  Ok (sort_values En.CodePoint (En.rows_of unicode_blocks inc show cmap)).
Proof.
  intros Hne. unfold En.enrich. rewrite en_extract_spec by exact Hne.
  reflexivity.
Qed.
End EnLoop.

Section ZhLoop.
Context `{Host}.

Lemma zh_loop_body_spec (inc show : bool) (item : Z * string)
  (s : loop_state Zh.glyph_row) :
  snd (Zh.loop_body inc show item s) =
  mk_loop_state (glyphs_data s ++ option_list (Zh.row_of inc show item))
    (processed s + 1).
Proof.
  destruct item as [p g].
  unfold Zh.loop_body, Zh.row_of, Zh.retained, Zh.and_category_startswith_C.
  run_body.
  destruct (chr p) as [c|e] eqn:E.
  - apply chr_Ok_inv in E. destruct E as [-> _].
    destruct inc, show; run_body;
      destruct (unicodedata_category p) as [cat|]; run_body;
      try destruct (startswith_C cat); cbn;
      rewrite ?app_nil_r; reflexivity.
  - cbn. rewrite app_nil_r. reflexivity.
Qed.

Lemma zh_extract_spec (cmap : cmap_t) (inc show : bool) :
  cmap <> [] ->
  Zh.extract_font_glyphs cmap inc show = Ok (Zh.rows_of inc show cmap).
Proof.
  intros Hne. unfold Zh.extract_font_glyphs.
  destruct cmap as [|i rest]; [contradiction|].
  rewrite (for_items_spec _ _ (zh_loop_body_spec inc show)).
  reflexivity.
Qed.

Lemma zh_enrich_spec (cmap : cmap_t) (inc show : bool) :
  cmap <> [] ->
  Zh.enrich cmap inc show =
  Ok (sort_values Zh.CodePoint (Zh.rows_of inc show cmap)).
Proof.
  intros Hne. unfold Zh.enrich. rewrite zh_extract_spec by exact Hne.
  reflexivity.
Qed.
End ZhLoop.

(** * The format spec [04X] *)

Lemma hex_digit_value_hex_digit (d : Z) :
  0 <= d < 16 -> hex_digit_value (hex_digit d) = Some d.
Proof.
  intros Hd.
  assert (d = 0 \/ d = 1 \/ d = 2 \/ d = 3 \/ d = 4 \/ d = 5 \/ d = 6 \/ d = 7
          \/ d = 8 \/ d = 9 \/ d = 10 \/ d = 11 \/ d = 12 \/ d = 13 \/ d = 14
          \/ d = 15) as Hcases by lia.
  repeat (destruct Hcases as [-> | Hcases]; [reflexivity|]).
  subst d. reflexivity.
Qed.

(** The digits written in front of [rest] are the hexadecimal digits of [n]:
    they parse back to [n], and their number [k + 1] is the least possible. *)
Lemma hex_digits_spec (fuel : nat) :
  forall (n : Z) (rest : string),
    0 <= n < 2 ^ (Z.of_nat fuel + 1) ->
    exists k : nat,
      String.length (hex_digits fuel n rest) = (S k + String.length rest)%nat /\
      (forall a, parse_hex_from a (hex_digits fuel n rest) =
                 parse_hex_from (a * 16 ^ Z.of_nat (S k) + n) rest) /\
      ((n = 0 /\ k = O) \/ 16 ^ Z.of_nat k <= n < 16 ^ Z.of_nat (S k)).
Proof.
  assert (Hone : forall n rest, 0 <= n < 16 ->
    String.length (String (hex_digit (n mod 16)) rest)
      = (1 + String.length rest)%nat /\
    (forall a, parse_hex_from a (String (hex_digit (n mod 16)) rest) =
               parse_hex_from (a * 16 ^ Z.of_nat 1 + n) rest) /\
    ((n = 0 /\ O = O) \/ 16 ^ Z.of_nat 0 <= n < 16 ^ Z.of_nat 1)).
  { intros n rest Hn. rewrite Z.mod_small by lia.
    split; [reflexivity|]. split.
    - intros a. cbn [parse_hex_from].
      rewrite hex_digit_value_hex_digit by lia. reflexivity.
    - change (16 ^ Z.of_nat 0) with 1. change (16 ^ Z.of_nat 1) with 16. lia. }
  induction fuel as [|fuel IH]; intros n rest Hn.
  - exists O. cbn [hex_digits]. apply Hone.
    change (2 ^ (Z.of_nat 0 + 1)) with 2 in Hn. lia.
  - cbn [hex_digits]. destruct (Z.eqb_spec (n / 16) 0) as [Hq|Hq].
    + exists O. apply Hone.
      pose proof (Z.div_mod n 16 ltac:(lia)) as Hdm.
      pose proof (Z.mod_pos_bound n 16 ltac:(lia)). lia.
    + pose proof (Z.div_mod n 16 ltac:(lia)) as Hdm.
      pose proof (Z.mod_pos_bound n 16 ltac:(lia)) as Hr.
      assert (Hqpos : 0 < n / 16).
      { assert (0 <= n / 16) by (apply Z.div_pos; lia). lia. }
      assert (Hpow : 2 ^ (Z.of_nat (S fuel) + 1) = 2 * 2 ^ (Z.of_nat fuel + 1)).
      { rewrite Nat2Z.inj_succ.
        replace (Z.succ (Z.of_nat fuel) + 1) with (Z.succ (Z.of_nat fuel + 1))
          by lia.
        apply Z.pow_succ_r. lia. }
      assert (Hq' : 0 <= n / 16 < 2 ^ (Z.of_nat fuel + 1)).
      { split; [lia|]. apply Z.div_lt_upper_bound; lia. }
      destruct (IH (n / 16) (String (hex_digit (n mod 16)) rest) Hq')
        as (k & Hlen & Hparse & Hk).
      exists (S k). split; [|split].
      * rewrite Hlen. cbn [String.length]. lia.
      * intros a. rewrite Hparse. cbn [parse_hex_from].
        rewrite hex_digit_value_hex_digit by lia. f_equal.
        rewrite (Nat2Z.inj_succ (S k)), Z.pow_succ_r by lia. lia.
      * right. destruct Hk as [[H0 _]|Hk]; [lia|].
        rewrite (Nat2Z.inj_succ (S k)), Z.pow_succ_r by lia.
        rewrite (Nat2Z.inj_succ k), Z.pow_succ_r in * by lia. lia.
Qed.

Lemma hex_upper_spec (n : Z) :
  0 <= n ->
  exists k : nat,
    String.length (hex_upper n) = S k /\
    parse_hex_from 0 (hex_upper n) = Some n /\
    ((n = 0 /\ k = O) \/ 16 ^ Z.of_nat k <= n < 16 ^ Z.of_nat (S k)).
Proof.
  intros Hn. unfold hex_upper.
  assert (Hfuel : 0 <= n < 2 ^ (Z.of_nat (Z.to_nat (Z.log2 n)) + 1)).
  { rewrite Z2Nat.id by apply Z.log2_nonneg.
    destruct (Z.eq_dec n 0) as [->|Hnz]; [cbn; lia|].
    pose proof (Z.log2_spec n ltac:(lia)) as Hl.
    replace (Z.log2 n + 1) with (Z.succ (Z.log2 n)) by lia. lia. }
  destruct (hex_digits_spec _ n EmptyString Hfuel) as (k & Hlen & Hparse & Hk).
  exists k. split; [|split].
  - rewrite Hlen. cbn [String.length]. lia.
  - rewrite Hparse. cbn [parse_hex_from]. f_equal; lia.
  - exact Hk.
Qed.

Lemma length_zeros_append (j : nat) (s : string) :
  String.length (zeros j ++ s)%string = (j + String.length s)%nat.
Proof. induction j as [|j IH]; cbn; [reflexivity | rewrite IH; reflexivity]. Qed.

Lemma parse_zeros_append (j : nat) (s : string) :
  parse_hex_from 0 (zeros j ++ s)%string = parse_hex_from 0 s.
Proof. induction j as [|j IH]; cbn; [reflexivity | exact IH]. Qed.

Lemma parse_hex_nonempty (s : string) :
  (0 < String.length s)%nat -> parse_hex s = parse_hex_from 0 s.
Proof. destruct s; cbn; [lia | reflexivity]. Qed.

(** For a non-negative [n] the formatted text is made of uppercase
    hexadecimal digits whose value is [n]; it has four characters, or as
    many as [n] has digits when these are more. *)
Lemma format_04X_spec (n : Z) :
  0 <= n ->
  exists k : nat,
    ((n = 0 /\ k = O) \/ 16 ^ Z.of_nat k <= n < 16 ^ Z.of_nat (S k)) /\
    String.length (format_04X n) = Nat.max 4 (S k) /\
    parse_hex (format_04X n) = Some n.
Proof.
  intros Hn. unfold format_04X.
  destruct (Z.ltb_spec n 0); [lia|].
  destruct (hex_upper_spec n Hn) as (k & Hlen & Hparse & Hk).
  exists k. split; [exact Hk|]. unfold zfill.
  assert (Hl : String.length (zeros (4 - String.length (hex_upper n))
                               ++ hex_upper n)%string = Nat.max 4 (S k)).
  { rewrite length_zeros_append, Hlen. lia. }
  split; [exact Hl|].
  rewrite parse_hex_nonempty by (rewrite Hl; lia).
  rewrite parse_zeros_append. exact Hparse.
Qed.

(** * Rows collected from a cmap *)

Lemma perm_option_list {A : Type} (o : option A) (l : list A) :
  Permutation (option_list o) l -> l = option_list o.
Proof.
  destruct o as [a|]; cbn; intros Hp.
  - apply Permutation_length_1_inv. exact Hp.
  - apply Permutation_nil. exact Hp.
Qed.

Lemma insert_sorted_map {A B : Type} (f : A -> B) (key : B -> Z) (x : A)
  (l : list A) :
  map f (insert_sorted (fun a b => key (f a) <? key (f b)) x l) =
  insert_sorted (fun a b => key a <? key b) (f x) (map f l).
Proof.
  induction l as [|y l IH]; cbn; [reflexivity|].
  destruct (key (f x) <? key (f y)); cbn; [reflexivity|].
  rewrite IH. reflexivity.
Qed.

(** Sorting commutes with a projection through which the key factors. *)
Lemma sort_values_map {A B : Type} (f : A -> B) (key : B -> Z) (l : list A) :
  map f (sort_values (fun a => key (f a)) l) = sort_values key (map f l).
Proof.
  unfold sort_values, stable_sort.
  change (@nil B) with (map f (@nil A)). generalize (@nil A) as acc.
  induction l as [|x l IH]; intros acc; cbn; [reflexivity|].
  rewrite IH, insert_sorted_map. reflexivity.
Qed.

Section Rows.
Context {R : Type}.
Variable cp : R -> Z.
Variable row : Z * string -> option R.
Variable keep : Z -> bool.
Hypothesis row_cp : forall q h r, row (q, h) = Some r -> cp r = q.
Hypothesis row_keep : forall q h,
  keep q = true <-> exists r, row (q, h) = Some r.

Let rows (cmap : cmap_t) : list R :=
  flat_map (fun item => option_list (row item)) cmap.

Lemma rows_app (a b : cmap_t) : rows (a ++ b) = rows a ++ rows b.
Proof. apply flat_map_app. Qed.

Lemma rows_codepoints (cmap : cmap_t) :
  map cp (rows cmap) = filter keep (map fst cmap).
Proof.
  induction cmap as [|[q h] rest IH]; [reflexivity|].
  cbn [rows flat_map map fst filter]. rewrite map_app. fold (rows rest).
  rewrite IH. pose proof (row_keep q h) as Hk. pose proof (row_cp q h) as Hc.
  destruct (row (q, h)) as [r|]; cbn [option_list map app].
  - rewrite (Hc r eq_refl).
    destruct (keep q); [reflexivity|].
    destruct Hk as [_ Hk]. discriminate Hk. exists r. reflexivity.
  - destruct (keep q); [|reflexivity].
    destruct Hk as [Hk _]. destruct (Hk eq_refl) as [r Hr]. discriminate.
Qed.

Lemma rows_nodup (cmap : cmap_t) :
  NoDup (map fst cmap) -> NoDup (map cp (rows cmap)).
Proof. intros Hn. rewrite rows_codepoints. apply NoDup_filter, Hn. Qed.

Lemma rows_filter_absent (p : Z) (cmap : cmap_t) :
  ~ In p (map fst cmap) -> filter (fun r => cp r =? p) (rows cmap) = [].
Proof.
  intros Hnot.
  destruct (filter (fun r => cp r =? p) (rows cmap)) as [|r l] eqn:E;
    [reflexivity|].
  assert (Hin : In r (filter (fun r => cp r =? p) (rows cmap))).
  { rewrite E. left. reflexivity. }
  apply filter_In in Hin. destruct Hin as [Hin Hp].
  apply Z.eqb_eq in Hp. exfalso. apply Hnot.
  assert (Hk : In (cp r) (map cp (rows cmap))) by (apply in_map; exact Hin).
  rewrite rows_codepoints in Hk. apply filter_In in Hk. rewrite <- Hp. apply Hk.
Qed.

Lemma rows_filter_present (p : Z) (g : string) (cmap : cmap_t) :
  NoDup (map fst cmap) -> In (p, g) cmap ->
  filter (fun r => cp r =? p) (rows cmap) = option_list (row (p, g)).
Proof.
  induction cmap as [|[q h] rest IH]; intros Hn Hin; [destruct Hin|].
  cbn [map fst] in Hn. inversion Hn as [|k ks Hq Hrest]; subst.
  cbn [rows flat_map]. rewrite filter_app. fold (rows rest).
  destruct Hin as [E|Hin].
  - injection E as -> ->.
    rewrite (rows_filter_absent p rest Hq), app_nil_r.
    pose proof (row_cp p g) as Hc.
    destruct (row (p, g)) as [r|]; cbn; [|reflexivity].
    rewrite (Hc r eq_refl), Z.eqb_refl. reflexivity.
  - rewrite (IH Hrest Hin).
    assert (Hqp : q <> p).
    { intros ->. apply Hq. change p with (fst (p, g)). apply in_map, Hin. }
    pose proof (row_cp q h) as Hc.
    destruct (row (q, h)) as [r|]; cbn; [|reflexivity].
    rewrite (Hc r eq_refl). destruct (Z.eqb_spec q p); [contradiction|].
    reflexivity.
Qed.

(** After the sort the rows of a code point are still the one row, or none,
    that its item produced. *)
Lemma sorted_rows_filter (p : Z) (g : string) (cmap : cmap_t) :
  NoDup (map fst cmap) -> In (p, g) cmap ->
  filter (fun r => cp r =? p) (sort_values cp (rows cmap)) =
  option_list (row (p, g)).
Proof.
  intros Hn Hin. apply perm_option_list.
  rewrite <- (rows_filter_present p g cmap Hn Hin).
  apply Permutation_filter. symmetry. apply sort_values_perm.
Qed.

Lemma sorted_rows_codepoints (cmap : cmap_t) :
  map cp (sort_values cp (rows cmap)) =
  sort_values (fun z => z) (filter keep (map fst cmap)).
Proof.
  rewrite <- rows_codepoints.
  exact (sort_values_map cp (fun z => z) (rows cmap)).
Qed.

Lemma rows_length_all (cmap : cmap_t) :
  (forall item, In item cmap -> keep (fst item) = true) ->
  List.length (rows cmap) = List.length cmap.
Proof.
  intros Hall.
  rewrite <- (length_map cp), rows_codepoints, <- (length_map fst cmap).
  f_equal. apply forallb_filter_id. apply forallb_forall.
  intros q Hq. apply in_map_iff in Hq. destruct Hq as (item & <- & Hitem).
  apply Hall, Hitem.
Qed.

Lemma rows_skip (a b : cmap_t) (q : Z) (h : string) :
  keep q = false -> rows (a ++ (q, h) :: b) = rows a ++ rows b.
Proof.
  intros Hk. rewrite rows_app. f_equal. cbn [rows flat_map].
  pose proof (row_keep q h) as Hr.
  destruct (row (q, h)) as [r|]; [|reflexivity].
  destruct Hr as [_ Hr]. rewrite Hr in Hk by (exists r; reflexivity).
  discriminate.
Qed.

Lemma count_occ_keys (l : list Z) (p : Z) :
  NoDup l ->
  count_occ Z.eq_dec l p = if existsb (Z.eqb p) l then 1%nat else 0%nat.
Proof.
  induction l as [|q l IH]; intros Hn; [reflexivity|].
  inversion Hn as [|k ks Hq Hl]; subst. cbn [existsb].
  destruct (Z.eqb_spec p q) as [->|Hne].
  - rewrite count_occ_cons_eq by reflexivity. cbn [orb].
    apply (count_occ_not_In Z.eq_dec) in Hq. rewrite Hq. reflexivity.
  - rewrite count_occ_cons_neq by congruence. cbn [orb]. apply IH, Hl.
Qed.

Lemma existsb_filter_keys (l : list Z) (p : Z) :
  existsb (Z.eqb p) (filter keep l) = existsb (Z.eqb p) l && keep p.
Proof.
  induction l as [|q l IH]; [reflexivity|]. cbn [filter existsb].
  destruct (keep q) eqn:Kq; cbn [existsb]; rewrite IH.
  - destruct (Z.eqb_spec p q) as [->|]; cbn [orb]; [|reflexivity].
    rewrite Kq. destruct (existsb _ l); reflexivity.
  - destruct (Z.eqb_spec p q) as [->|]; cbn [orb]; [|reflexivity].
    rewrite Kq, andb_false_r. reflexivity.
Qed.

(** Every key of the cmap that is kept occurs once among the sorted rows,
    every other integer does not occur. *)
Lemma sorted_rows_count (cmap : cmap_t) (p : Z) :
  NoDup (map fst cmap) ->
  count_occ Z.eq_dec (map cp (sort_values cp (rows cmap))) p =
  if existsb (Z.eqb p) (map fst cmap) && keep p then 1%nat else 0%nat.
Proof.
  intros Hn.
  rewrite (proj1 (Permutation_count_occ Z.eq_dec _ _)
             (Permutation_map cp (sort_values_perm cp (rows cmap))) p).
  rewrite rows_codepoints, count_occ_keys by (apply NoDup_filter, Hn).
  rewrite existsb_filter_keys. reflexivity.
Qed.
End Rows.

(** * Facts about the rows of the two converters *)

Section EnRows.
Context `{Host}.
Variable unicode_blocks : list block_range.
Variables inc show : bool.

Lemma en_row_cp (q : Z) (h : string) (r : En.glyph_row) :
  En.row_of unicode_blocks inc show (q, h) = Some r -> En.CodePoint r = q.
Proof.
  unfold En.row_of. destruct (En.retained inc q); [|discriminate].
  intros E. injection E as <-. reflexivity.
Qed.

Lemma en_row_keep (q : Z) (h : string) :
  En.retained inc q = true <->
  exists r, En.row_of unicode_blocks inc show (q, h) = Some r.
Proof.
  unfold En.row_of. destruct (En.retained inc q); split; intros E.
  - eexists. reflexivity.
  - reflexivity.
  - discriminate.
  - destruct E as [r E]. discriminate.
Qed.

Lemma en_retained_range (q : Z) :
  En.retained inc q = true -> 0 <= q <= 0x10FFFF.
Proof.
  unfold En.retained. destruct (chr q) as [c|e] eqn:E; [|discriminate].
  intros _. apply chr_Ok_inv in E. apply E.
Qed.

Lemma en_retained_eq (q : Z) :
  0 <= q <= 0x10FFFF ->
  En.retained inc q = negb (negb inc && startswith_C (En.computed_category q)).
Proof. intros Hq. unfold En.retained. rewrite chr_in_range by exact Hq. reflexivity. Qed.

(** How one pass of the loop body ends. *)
Lemma en_loop_body_outcome (p : Z) (g : string) (s : loop_state En.glyph_row) :
  fst (En.loop_body unicode_blocks inc show (p, g) s) =
  match chr p with
  | Err e => Raised e
  | Ok c =>
      if negb inc && startswith_C (En.computed_category c) then Continue
      else Normal tt
  end.
Proof.
  unfold En.loop_body. run_body.
  destruct (chr p) as [c|e]; [|reflexivity].
  unfold En.computed_category; run_body.
  destruct (unicodedata_category c) as [cat|]; run_body;
    destruct (negb inc && startswith_C _); reflexivity.
Qed.

Lemma en_normal_retained (p : Z) (g : string) (s : loop_state En.glyph_row) :
  fst (En.loop_body unicode_blocks inc show (p, g) s) = Normal tt ->
  En.retained inc p = true.
Proof.
  rewrite en_loop_body_outcome. unfold En.retained.
  destruct (chr p) as [c|e]; [|discriminate].
  destruct (negb inc && startswith_C _); [discriminate | reflexivity].
Qed.

Lemma en_retained_normal (p : Z) (g : string) (s : loop_state En.glyph_row) :
  En.retained inc p = true ->
  fst (En.loop_body unicode_blocks inc show (p, g) s) = Normal tt.
Proof.
  rewrite en_loop_body_outcome. unfold En.retained.
  destruct (chr p) as [c|e]; [|discriminate].
  destruct (negb inc && startswith_C _); [discriminate | reflexivity].
Qed.

Lemma en_raised_not_retained (p : Z) (g : string) (e : exn)
  (s : loop_state En.glyph_row) :
  fst (En.loop_body unicode_blocks inc show (p, g) s) = Raised e ->
  En.retained inc p = false.
Proof.
  rewrite en_loop_body_outcome. unfold En.retained.
  destruct (chr p) as [c|e']; [|reflexivity].
  destruct (negb inc && startswith_C _); discriminate.
Qed.

(** Every row of the sorted frame was built from an item of the cmap. *)
Lemma en_sorted_row_inv (cmap : cmap_t) (r : En.glyph_row) :
  In r (sort_values En.CodePoint (En.rows_of unicode_blocks inc show cmap)) ->
  exists q h, In (q, h) cmap /\ En.retained inc q = true /\
    r = {| En.Character :=
             if negb show && startswith_C (En.computed_category q)
             then [0x25A1] else [q];
           En.Unicode := ("U+" ++ format_04X q)%string;
           En.UnicodeName := En.get_unicode_name q;
           En.Block := En.get_unicode_block unicode_blocks q;
           En.GlyphName := En.get_glyph_name h;
           En.CodePoint := q;
           En.Category := En.computed_category q |}.
Proof.
  intros Hin.
  apply (Permutation_in _ (sort_values_perm En.CodePoint _)) in Hin.
  unfold En.rows_of in Hin. apply in_flat_map in Hin.
  destruct Hin as ([q h] & Hitem & Hr). exists q, h.
  unfold En.row_of in Hr. destruct (En.retained inc q); [|destruct Hr].
  destruct Hr as [<-|[]]. repeat split. exact Hitem.
Qed.
End EnRows.

Section ZhRows.
Context `{Host}.
Variables inc show : bool.

Lemma zh_retained_category (q : Z) :
  Zh.retained inc q = true ->
  0 <= q <= 0x10FFFF /\
  exists cat, unicodedata_category q = Some cat /\
              negb inc && startswith_C cat = false.
Proof.
  unfold Zh.retained. destruct (chr q) as [c|e] eqn:E; [|discriminate].
  apply chr_Ok_inv in E. destruct E as [-> E].
  destruct (unicodedata_category q) as [cat|]; [|discriminate].
  intros Hk. split; [exact E|]. exists cat. split; [reflexivity|].
  apply negb_true_iff. exact Hk.
Qed.

Lemma zh_retained_eq (q : Z) (cat : string) :
  0 <= q <= 0x10FFFF -> unicodedata_category q = Some cat ->
  Zh.retained inc q = negb (negb inc && startswith_C cat).
Proof.
  intros Hq Hc. unfold Zh.retained.
  rewrite chr_in_range by exact Hq. rewrite Hc. reflexivity.
Qed.

Lemma zh_row_cp (q : Z) (h : string) (r : Zh.glyph_row) :
  Zh.row_of inc show (q, h) = Some r -> Zh.CodePoint r = q.
Proof.
  unfold Zh.row_of. destruct (Zh.retained inc q); [|discriminate].
  destruct (unicodedata_category q); [|discriminate].
  intros E. injection E as <-. reflexivity.
Qed.

Lemma zh_row_keep (q : Z) (h : string) :
  Zh.retained inc q = true <-> exists r, Zh.row_of inc show (q, h) = Some r.
Proof.
  unfold Zh.row_of. destruct (Zh.retained inc q) eqn:K; split; intros E.
  - destruct (zh_retained_category q K) as (_ & cat & -> & _).
    eexists. reflexivity.
  - reflexivity.
  - discriminate.
  - destruct E as [r E]. discriminate.
Qed.

Lemma zh_loop_body_outcome (p : Z) (g : string) (s : loop_state Zh.glyph_row) :
  fst (Zh.loop_body inc show (p, g) s) =
  match chr p with
  | Err e => Raised e
  | Ok c =>
      match unicodedata_category c with
      | None => Raised CollaboratorError
      | Some cat =>
          if negb inc && startswith_C cat then Continue else Normal tt
      end
  end.
Proof.
  unfold Zh.loop_body, Zh.and_category_startswith_C. run_body.
  destruct (chr p) as [c|e]; [|reflexivity].
  destruct inc, show; run_body;
    destruct (unicodedata_category c) as [cat|]; run_body;
    try destruct (startswith_C cat); reflexivity.
Qed.

Lemma zh_sorted_row_inv (cmap : cmap_t) (r : Zh.glyph_row) :
  In r (sort_values Zh.CodePoint (Zh.rows_of inc show cmap)) ->
  exists q h cat, In (q, h) cmap /\ Zh.retained inc q = true /\
    unicodedata_category q = Some cat /\
    r = {| Zh.Character :=
             if negb show && startswith_C cat then [0x25A1] else [q];
           Zh.Unicode := ("U+" ++ format_04X q)%string;
           Zh.UnicodeName := Zh.get_unicode_name q;
           Zh.Block := Zh.get_unicode_block q;
           Zh.CodePoint := q;
           Zh.Category := cat |}.
Proof.
  intros Hin.
  apply (Permutation_in _ (sort_values_perm Zh.CodePoint _)) in Hin.
  unfold Zh.rows_of in Hin. apply in_flat_map in Hin.
  destruct Hin as ([q h] & Hitem & Hr).
  unfold Zh.row_of in Hr. destruct (Zh.retained inc q) eqn:K; [|destruct Hr].
  destruct (unicodedata_category q) as [cat|] eqn:C; [|destruct Hr].
  destruct Hr as [<-|[]]. exists q, h, cat. repeat split; assumption.
Qed.
End ZhRows.

(** * The records of one code point *)

Lemma in_cmap_nonempty (cmap : cmap_t) (item : Z * string) :
  In item cmap -> cmap <> [].
Proof. intros Hin ->. destruct Hin. Qed.

Section Records.
Context `{Host}.
Variable unicode_blocks : list block_range.

Lemma en_records_of (inc show : bool) (cmap : cmap_t) (p : Z) (g : string) :
  NoDup (map fst cmap) -> In (p, g) cmap ->
  exists data,
    En.enrich unicode_blocks cmap inc show = Ok data /\
    filter (fun r => En.CodePoint r =? p) data =
    option_list (En.row_of unicode_blocks inc show (p, g)).
Proof.
  intros Hn Hin. eexists. split.
  - apply en_enrich_spec. exact (in_cmap_nonempty _ _ Hin).
  - exact (sorted_rows_filter En.CodePoint
             (En.row_of unicode_blocks inc show) (En.retained inc)
             (en_row_cp unicode_blocks inc show)
             (en_row_keep unicode_blocks inc show) p g cmap Hn Hin).
Qed.

Lemma zh_records_of (inc show : bool) (cmap : cmap_t) (p : Z) (g : string) :
  NoDup (map fst cmap) -> In (p, g) cmap ->
  exists data,
    Zh.enrich cmap inc show = Ok data /\
    filter (fun r => Zh.CodePoint r =? p) data =
    option_list (Zh.row_of inc show (p, g)).
Proof.
  intros Hn Hin. eexists. split.
  - apply zh_enrich_spec. exact (in_cmap_nonempty _ _ Hin).
  - exact (sorted_rows_filter Zh.CodePoint (Zh.row_of inc show)
             (Zh.retained inc) (zh_row_cp inc show) (zh_row_keep inc show)
             p g cmap Hn Hin).
Qed.

(** A code point inside the code space whose category starts with C: no
    record without the control characters, one record with them. *)
Lemma en_control_records (show : bool) (cmap : cmap_t) (p : Z)
  (g category : string) :
  NoDup (map fst cmap) -> In (p, g) cmap -> 0 <= p <= 0x10FFFF ->
  En.computed_category p = category -> startswith_C category = true ->
  (exists data,
      En.enrich unicode_blocks cmap false show = Ok data /\
      filter (fun r => En.CodePoint r =? p) data = []) /\
  (exists data r,
      En.enrich unicode_blocks cmap true show = Ok data /\
      filter (fun r => En.CodePoint r =? p) data = [r] /\
      En.Category r = category).
Proof.
  intros Hn Hin Hp Hcat HC. split.
  - destruct (en_records_of false show cmap p g Hn Hin) as (data & Hd & Hf).
    exists data. split; [exact Hd|]. rewrite Hf. unfold En.row_of.
    rewrite en_retained_eq, Hcat, HC by exact Hp. reflexivity.
  - destruct (en_records_of true show cmap p g Hn Hin) as (data & Hd & Hf).
    unfold En.row_of in Hf. rewrite en_retained_eq in Hf by exact Hp.
    cbn [negb andb option_list] in Hf.
    eexists data, _. split; [exact Hd|]. split; [exact Hf|]. exact Hcat.
Qed.

Lemma zh_control_records (show : bool) (cmap : cmap_t) (p : Z)
  (g category : string) :
  NoDup (map fst cmap) -> In (p, g) cmap -> 0 <= p <= 0x10FFFF ->
  unicodedata_category p = Some category -> startswith_C category = true ->
  (exists data,
      Zh.enrich cmap false show = Ok data /\
      filter (fun r => Zh.CodePoint r =? p) data = []) /\
  (exists data r,
      Zh.enrich cmap true show = Ok data /\
      filter (fun r => Zh.CodePoint r =? p) data = [r] /\
      Zh.Category r = category).
Proof.
  intros Hn Hin Hp Hcat HC. split.
  - destruct (zh_records_of false show cmap p g Hn Hin) as (data & Hd & Hf).
    exists data. split; [exact Hd|]. rewrite Hf. unfold Zh.row_of.
    rewrite (zh_retained_eq false p category Hp Hcat), HC. reflexivity.
  - destruct (zh_records_of true show cmap p g Hn Hin) as (data & Hd & Hf).
    unfold Zh.row_of in Hf.
    rewrite (zh_retained_eq true p category Hp Hcat), Hcat in Hf.
    cbn [negb andb option_list] in Hf.
    eexists data, _. split; [exact Hd|]. split; [exact Hf|]. reflexivity.
Qed.
End Records.

Ltac nodup_keys :=
  cbn [map fst];
  repeat (constructor; [cbn [In]; intuition discriminate|]); constructor.

(** * The claims about the enrichment *)

(** C2: a code point of the cmap whose general category starts with C gets
    no record when the control characters are excluded, and exactly one
    record, carrying that category, when they are included; in both
    converters. *)
Theorem C2_control_filter :
  forall (H : Host) (unicode_blocks : list block_range) (cmap : cmap_t)
         (show_preview : bool) (p : Z) (g category : string),
    NoDup (map fst cmap) -> In (p, g) cmap -> 0 <= p <= 0x10FFFF ->
    unicodedata_category p = Some category ->
    startswith_C category = true ->
    ((exists data,
         En.enrich unicode_blocks cmap false show_preview = Ok data /\
         filter (fun r => En.CodePoint r =? p) data = []) /\
     (exists data r,
         En.enrich unicode_blocks cmap true show_preview = Ok data /\
         filter (fun r => En.CodePoint r =? p) data = [r] /\
         En.Category r = category)) /\
    ((exists data,
         Zh.enrich cmap false show_preview = Ok data /\
         filter (fun r => Zh.CodePoint r =? p) data = []) /\
     (exists data r,
         Zh.enrich cmap true show_preview = Ok data /\
         filter (fun r => Zh.CodePoint r =? p) data = [r] /\
         Zh.Category r = category)).
Proof.
  intros H blocks cmap show p g category Hn Hin Hp Hcat HC. split.
  - apply (en_control_records blocks show cmap p g category); try assumption.
    unfold En.computed_category. rewrite Hcat. reflexivity.
  - apply (zh_control_records show cmap p g category); assumption.
Qed.

(** The TAB of the spec, next to a capital letter. *)
Lemma C2_control_filter_witness :
  let cmap := [(0x0041, "A"); (0x0009, "uni0009")] in
  ((exists data,
       @En.enrich sample_host En.load_unicode_blocks cmap false false = Ok data /\
       filter (fun r => En.CodePoint r =? 0x0009) data = []) /\
   (exists data r,
       @En.enrich sample_host En.load_unicode_blocks cmap true false = Ok data /\
       filter (fun r => En.CodePoint r =? 0x0009) data = [r] /\
       En.Category r = "Cc")) /\
  ((exists data,
       @Zh.enrich sample_host cmap false false = Ok data /\
       filter (fun r => Zh.CodePoint r =? 0x0009) data = []) /\
   (exists data r,
       @Zh.enrich sample_host cmap true false = Ok data /\
       filter (fun r => Zh.CodePoint r =? 0x0009) data = [r] /\
       Zh.Category r = "Cc")).
Proof.
  intros cmap.
  apply (C2_control_filter sample_host En.load_unicode_blocks cmap false
           0x0009 "uni0009" "Cc").
  - unfold cmap. nodup_keys.
  - right. left. reflexivity.
  - lia.
  - reflexivity.
  - reflexivity.
Defined.

(** C3: the sorted sequence of records has strictly increasing code points
    and no code point twice; a key of the cmap that is retained occurs in it
    exactly once, and nothing else occurs.  The enrichment returns no
    sequence only for the empty cmap. *)
Theorem C3_sorted_unique :
  forall (H : Host) (unicode_blocks : list block_range) (cmap : cmap_t)
         (include_control_chars show_preview : bool),
    NoDup (map fst cmap) ->
    match En.enrich unicode_blocks cmap include_control_chars show_preview with
    | Ok data =>
        StronglySorted Z.lt (map En.CodePoint data) /\
        NoDup (map En.CodePoint data) /\
        forall p,
          count_occ Z.eq_dec (map En.CodePoint data) p =
          if existsb (Z.eqb p) (map fst cmap)
             && En.retained include_control_chars p
          then 1%nat else 0%nat
    | Err _ => cmap = []
    end.
Proof.
  intros H blocks cmap inc show Hn.
  destruct cmap as [|item rest] eqn:Ecmap; [reflexivity|]. rewrite <- Ecmap in *.
  rewrite en_enrich_spec by (rewrite Ecmap; discriminate).
  assert (Hnd : NoDup (map En.CodePoint (En.rows_of blocks inc show cmap))).
  { exact (rows_nodup En.CodePoint (En.row_of blocks inc show)
             (En.retained inc) (en_row_cp blocks inc show)
             (en_row_keep blocks inc show) cmap Hn). }
  split; [|split].
  - apply sort_values_strict. exact Hnd.
  - eapply Permutation_NoDup; [|exact Hnd].
    apply Permutation_map. symmetry. apply sort_values_perm.
  - intros p.
    exact (sorted_rows_count En.CodePoint (En.row_of blocks inc show)
             (En.retained inc) (en_row_cp blocks inc show)
             (en_row_keep blocks inc show) cmap p Hn).
Qed.

Lemma C3_sorted_unique_witness :
  match @En.enrich sample_host En.load_unicode_blocks
          [(0x4E2D, "uni4E2D"); (0x0009, "uni0009"); (0x0041, "A")]
          false true with
  | Ok data =>
      StronglySorted Z.lt (map En.CodePoint data) /\
      NoDup (map En.CodePoint data) /\
      forall p,
        count_occ Z.eq_dec (map En.CodePoint data) p =
        if existsb (Z.eqb p)
             (map fst [(0x4E2D, "uni4E2D"); (0x0009, "uni0009"); (0x0041, "A")])
           && @En.retained sample_host false p
        then 1%nat else 0%nat
  | Err _ => [(0x4E2D, "uni4E2D"); (0x0009, "uni0009"); (0x0041, "A")] = []
  end.
Proof.
  apply (C3_sorted_unique sample_host En.load_unicode_blocks
           [(0x4E2D, "uni4E2D"); (0x0009, "uni0009"); (0x0041, "A")]
           false true).
  nodup_keys.
Defined.

(** C4, as the code has it: an item on which the loop body raises, as it
    does for a code point outside the code space, which [chr] rejects,
    contributes nothing and stops nothing: the rows of the items before it
    and after it are all collected, so that N items that process normally
    give exactly N records.  A code point inside the code space is not such
    an item, a lone surrogate included. *)
Theorem C4_fault_isolation :
  forall (H : Host) (unicode_blocks : list block_range)
         (before after : cmap_t) (bad : Z) (g : string)
         (include_control_chars show_preview : bool),
    ((bad < 0 \/ 0x10FFFF < bad) \/
     (forall s, exists e,
         fst (En.loop_body unicode_blocks include_control_chars show_preview
                (bad, g) s) = Raised e)) ->
    (forall item s, In item (before ++ after) ->
       fst (En.loop_body unicode_blocks include_control_chars show_preview
              item s) = Normal tt) ->
    En.extract_font_glyphs unicode_blocks (before ++ (bad, g) :: after)
      include_control_chars show_preview =
    Ok (En.rows_of unicode_blocks include_control_chars show_preview before
        ++ En.rows_of unicode_blocks include_control_chars show_preview after)
    /\
    List.length
      (En.rows_of unicode_blocks include_control_chars show_preview before)
    = List.length before /\
    List.length
      (En.rows_of unicode_blocks include_control_chars show_preview after)
    = List.length after /\
    exists data,
      En.enrich unicode_blocks (before ++ (bad, g) :: after)
        include_control_chars show_preview = Ok data /\
      List.length data = (List.length before + List.length after)%nat.
Proof.
  intros H blocks before after bad g inc show Hbad Hgood.
  set (s0 := mk_loop_state (@nil En.glyph_row) 0).
  assert (Hdrop : En.retained inc bad = false).
  { destruct Hbad as [Hrange|Hraise].
    - unfold En.retained. destruct (chr_out_of_range bad Hrange) as [e ->].
      reflexivity.
    - destruct (Hraise s0) as [e He].
      exact (en_raised_not_retained blocks inc show bad g e s0 He). }
  assert (Hkeep : forall l, (forall item, In item l -> In item (before ++ after)) ->
            List.length (En.rows_of blocks inc show l) = List.length l).
  { intros l Hl.
    apply (rows_length_all En.CodePoint (En.row_of blocks inc show)
             (En.retained inc) (en_row_cp blocks inc show)
             (en_row_keep blocks inc show)).
    intros [q h] Hitem.
    exact (en_normal_retained blocks inc show q h s0
             (Hgood (q, h) s0 (Hl _ Hitem))). }
  assert (Hne : before ++ (bad, g) :: after <> []).
  { intros E. apply app_eq_nil in E. destruct E as [_ E]. discriminate. }
  assert (Hrows : En.rows_of blocks inc show (before ++ (bad, g) :: after) =
                  En.rows_of blocks inc show before
                  ++ En.rows_of blocks inc show after).
  { exact (rows_skip (En.row_of blocks inc show) (En.retained inc)
             (en_row_keep blocks inc show) before after bad g Hdrop). }
  assert (Hb : List.length (En.rows_of blocks inc show before)
               = List.length before).
  { apply Hkeep. intros item Hi. apply in_or_app. left. exact Hi. }
  assert (Ha : List.length (En.rows_of blocks inc show after)
               = List.length after).
  { apply Hkeep. intros item Hi. apply in_or_app. right. exact Hi. }
  split; [|split; [exact Hb | split; [exact Ha|]]].
  - rewrite en_extract_spec by exact Hne. rewrite Hrows. reflexivity.
  - eexists. split; [apply en_enrich_spec; exact Hne|].
    rewrite (Permutation_length (sort_values_perm En.CodePoint _)).
    rewrite Hrows, length_app, Hb, Ha. reflexivity.
Qed.

(** One code point above 0x10FFFF between two ordinary characters. *)
Lemma C4_fault_isolation_witness :
  @En.extract_font_glyphs sample_host En.load_unicode_blocks
    ([(0x0041, "A")] ++ (0x110000, "bad") :: [(0x4E2D, "uni4E2D")])
    false true =
  Ok (@En.rows_of sample_host En.load_unicode_blocks false true [(0x0041, "A")]
      ++ @En.rows_of sample_host En.load_unicode_blocks false true
           [(0x4E2D, "uni4E2D")])
  /\
  List.length
    (@En.rows_of sample_host En.load_unicode_blocks false true [(0x0041, "A")])
  = 1%nat /\
  List.length
    (@En.rows_of sample_host En.load_unicode_blocks false true
       [(0x4E2D, "uni4E2D")])
  = 1%nat /\
  exists data,
    @En.enrich sample_host En.load_unicode_blocks
      ([(0x0041, "A")] ++ (0x110000, "bad") :: [(0x4E2D, "uni4E2D")])
      false true = Ok data /\
    List.length data = 2%nat.
Proof.
  apply (C4_fault_isolation sample_host En.load_unicode_blocks
           [(0x0041, "A")] [(0x4E2D, "uni4E2D")] 0x110000 "bad" false true).
  - left. right. reflexivity.
  - intros item s [<-|[<-|[]]]; reflexivity.
Defined.

(** C4 as the spec words it fails for the invalid code point it names, the
    lone surrogate: [chr] accepts U+D800, the body ends normally on it, and
    with the control characters included the two ordinary entries around it
    give three records, not two. *)
Lemma C4_surrogate_entry_is_counted :
  let cmap := [(0x0041, "A"); (0xD800, "uniD800"); (0x4E2D, "uni4E2D")] in
  chr 0xD800 = Ok 0xD800 /\
  (forall s,
      fst (@En.loop_body sample_host En.load_unicode_blocks true true
             (0x0041, "A") s) = Normal tt /\
      fst (@En.loop_body sample_host En.load_unicode_blocks true true
             (0x4E2D, "uni4E2D") s) = Normal tt /\
      fst (@En.loop_body sample_host En.load_unicode_blocks true true
             (0xD800, "uniD800") s) = Normal tt) /\
  exists data,
    @En.enrich sample_host En.load_unicode_blocks cmap true true = Ok data /\
    map En.CodePoint data = [0x0041; 0x4E2D; 0xD800] /\
    List.length data = 3%nat.
Proof.
  intros cmap. split; [reflexivity|]. split.
  - intros s. repeat split; reflexivity.
  - eexists. split; [vm_compute; reflexivity|]. split; reflexivity.
Qed.

(** C5, as the code has it: [chr] accepts a surrogate code point, so the
    pass does not fail on it.  With the category Cs of the character
    database the item is dropped by the control-character filter when the
    control characters are excluded, and gives exactly one record, of
    category Cs, when they are included; in both converters. *)
Theorem C5_surrogates_filtered :
  forall (H : Host) (unicode_blocks : list block_range) (cmap : cmap_t)
         (show_preview : bool) (p : Z) (g : string),
    NoDup (map fst cmap) -> In (p, g) cmap -> 0xD800 <= p <= 0xDFFF ->
    unicodedata_category p = Some "Cs" ->
    chr p = Ok p /\
    (forall s,
        fst (En.loop_body unicode_blocks false show_preview (p, g) s)
        = Continue /\
        fst (En.loop_body unicode_blocks true show_preview (p, g) s)
        = Normal tt) /\
    (forall s,
        fst (Zh.loop_body false show_preview (p, g) s) = Continue /\
        fst (Zh.loop_body true show_preview (p, g) s) = Normal tt) /\
    ((exists data,
         En.enrich unicode_blocks cmap false show_preview = Ok data /\
         filter (fun r => En.CodePoint r =? p) data = []) /\
     (exists data r,
         En.enrich unicode_blocks cmap true show_preview = Ok data /\
         filter (fun r => En.CodePoint r =? p) data = [r] /\
         En.Category r = "Cs")) /\
    ((exists data,
         Zh.enrich cmap false show_preview = Ok data /\
         filter (fun r => Zh.CodePoint r =? p) data = []) /\
     (exists data r,
         Zh.enrich cmap true show_preview = Ok data /\
         filter (fun r => Zh.CodePoint r =? p) data = [r] /\
         Zh.Category r = "Cs")).
Proof.
  intros H blocks cmap show p g Hn Hin Hp Hcat.
  assert (Hr : 0 <= p <= 0x10FFFF) by lia.
  split; [apply chr_in_range; exact Hr|]. split; [|split; [|split]].
  - intros s. rewrite !en_loop_body_outcome.
    rewrite chr_in_range by exact Hr. unfold En.computed_category.
    rewrite Hcat. split; reflexivity.
  - intros s. rewrite !zh_loop_body_outcome.
    rewrite chr_in_range by exact Hr. rewrite Hcat. split; reflexivity.
  - apply (en_control_records blocks show cmap p g "Cs"); try assumption.
    + unfold En.computed_category. rewrite Hcat. reflexivity.
    + reflexivity.
  - apply (zh_control_records show cmap p g "Cs"); try assumption.
    reflexivity.
Qed.

Lemma C5_surrogates_filtered_witness :
  chr 0xD800 = Ok 0xD800 /\
  (forall s,
      fst (@En.loop_body sample_host En.load_unicode_blocks false true
             (0xD800, "uniD800") s) = Continue /\
      fst (@En.loop_body sample_host En.load_unicode_blocks true true
             (0xD800, "uniD800") s) = Normal tt) /\
  (forall s,
      fst (@Zh.loop_body sample_host false true (0xD800, "uniD800") s)
      = Continue /\
      fst (@Zh.loop_body sample_host true true (0xD800, "uniD800") s)
      = Normal tt) /\
  ((exists data,
       @En.enrich sample_host En.load_unicode_blocks
         [(0x0041, "A"); (0xD800, "uniD800")] false true = Ok data /\
       filter (fun r => En.CodePoint r =? 0xD800) data = []) /\
   (exists data r,
       @En.enrich sample_host En.load_unicode_blocks
         [(0x0041, "A"); (0xD800, "uniD800")] true true = Ok data /\
       filter (fun r => En.CodePoint r =? 0xD800) data = [r] /\
       En.Category r = "Cs")) /\
  ((exists data,
       @Zh.enrich sample_host [(0x0041, "A"); (0xD800, "uniD800")] false true
       = Ok data /\
       filter (fun r => Zh.CodePoint r =? 0xD800) data = []) /\
   (exists data r,
       @Zh.enrich sample_host [(0x0041, "A"); (0xD800, "uniD800")] true true
       = Ok data /\
       filter (fun r => Zh.CodePoint r =? 0xD800) data = [r] /\
       Zh.Category r = "Cs")).
Proof.
  apply (C5_surrogates_filtered sample_host En.load_unicode_blocks
           [(0x0041, "A"); (0xD800, "uniD800")] true 0xD800 "uniD800").
  - nodup_keys.
  - right. left. reflexivity.
  - lia.
  - reflexivity.
Defined.

(** C5 as the spec words it fails: with the control characters included,
    the surrogate U+D800 is converted by [chr] and its record is produced,
    in both converters. *)
Lemma C5_surrogate_record_produced :
  chr 0xD800 = Ok 0xD800 /\
  (exists r,
      @En.enrich sample_host En.load_unicode_blocks [(0xD800, "uniD800")]
        true true = Ok [r] /\
      En.CodePoint r = 0xD800 /\ En.Category r = "Cs") /\
  (exists r,
      @Zh.enrich sample_host [(0xD800, "uniD800")] true true = Ok [r] /\
      Zh.CodePoint r = 0xD800 /\ Zh.Category r = "Cs").
Proof.
  split; [reflexivity|]. split; eexists; repeat split; vm_compute; reflexivity.
Qed.

Lemma Forall2_map_same {A B C : Type} (P : B -> C -> Prop) (f : A -> B)
  (g : A -> C) (l : list A) :
  (forall x, In x l -> P (f x) (g x)) -> Forall2 P (map f l) (map g l).
Proof.
  induction l as [|a l IH]; intros Hall; cbn; constructor.
  - apply Hall. left. reflexivity.
  - apply IH. intros x Hx. apply Hall. right. exact Hx.
Qed.

(** C6: every retained entry of the cmap has exactly one record, and the
    [Character] column of that record is the placeholder U+25A1 when the
    preview is off and the category of the entry's character starts with C,
    and the character of the entry's code point in every other case; every
    record of the output belongs to a key of the cmap and obeys the same
    rule; in both converters.  For A and TAB with the control characters
    included, the preview off turns the TAB, and only the TAB, into the
    placeholder. *)
Theorem C6_display_char :
  forall (H : Host) (unicode_blocks : list block_range) (cmap : cmap_t)
         (include_control_chars show_preview : bool),
    NoDup (map fst cmap) ->
    match En.enrich unicode_blocks cmap include_control_chars show_preview
    with
    | Ok data =>
        Forall (fun r =>
                  En.Character r =
                  if negb show_preview && startswith_C (En.Category r)
                  then [0x25A1] else [En.CodePoint r]) data /\
        Forall (fun r =>
                  In (En.CodePoint r) (map fst cmap) /\
                  En.Category r = En.computed_category (En.CodePoint r)) data
        /\
        forall p g,
          In (p, g) cmap -> En.retained include_control_chars p = true ->
          exists r,
            filter (fun r => En.CodePoint r =? p) data = [r] /\
            En.Category r = En.computed_category p /\
            En.Character r =
            if negb show_preview && startswith_C (En.computed_category p)
            then [0x25A1] else [p]
    | Err _ => cmap = []
    end /\
    match Zh.enrich cmap include_control_chars show_preview with
    | Ok data =>
        Forall (fun r =>
                  Zh.Character r =
                  if negb show_preview && startswith_C (Zh.Category r)
                  then [0x25A1] else [Zh.CodePoint r]) data /\
        Forall (fun r =>
                  In (Zh.CodePoint r) (map fst cmap) /\
                  unicodedata_category (Zh.CodePoint r) = Some (Zh.Category r))
          data /\
        forall p g category,
          In (p, g) cmap -> Zh.retained include_control_chars p = true ->
          unicodedata_category p = Some category ->
          exists r,
            filter (fun r => Zh.CodePoint r =? p) data = [r] /\
            Zh.Category r = category /\
            Zh.Character r =
            if negb show_preview && startswith_C category
            then [0x25A1] else [p]
    | Err _ => cmap = []
    end /\
    (let tab_and_a := [(0x0041, "A"); (0x0009, "uni0009")] in
     (exists data,
         @En.enrich sample_host En.load_unicode_blocks tab_and_a true false
         = Ok data /\
         map En.CodePoint data = [0x0009; 0x0041] /\
         map En.Character data = [[0x25A1]; [0x0041]]) /\
     (exists data,
         @En.enrich sample_host En.load_unicode_blocks tab_and_a true true
         = Ok data /\
         map En.Character data = [[0x0009]; [0x0041]]) /\
     (exists data,
         @Zh.enrich sample_host tab_and_a true false = Ok data /\
         map Zh.CodePoint data = [0x0009; 0x0041] /\
         map Zh.Character data = [[0x25A1]; [0x0041]]) /\
     (exists data,
         @Zh.enrich sample_host tab_and_a true true = Ok data /\
         map Zh.Character data = [[0x0009]; [0x0041]])).
Proof.
  intros H blocks cmap inc show Hn. split; [|split].
  - destruct cmap as [|item rest] eqn:Ecmap; [reflexivity|].
    rewrite <- Ecmap in *.
    assert (Hne : cmap <> []) by (rewrite Ecmap; discriminate).
    pose proof (fun p g => en_records_of blocks inc show cmap p g Hn) as Hrec.
    rewrite en_enrich_spec in Hrec |- * by exact Hne.
    split; [|split].
    + apply Forall_forall. intros r Hr.
      apply en_sorted_row_inv in Hr. destruct Hr as (q & h & _ & _ & ->).
      reflexivity.
    + apply Forall_forall. intros r Hr.
      apply en_sorted_row_inv in Hr. destruct Hr as (q & h & Hq & _ & ->).
      split; [|reflexivity]. cbn [En.CodePoint].
      change q with (fst (q, h)). apply in_map, Hq.
    + intros p g Hin Hk.
      destruct (Hrec p g Hin) as (data & Hd & Hf). injection Hd as <-.
      unfold En.row_of in Hf. rewrite Hk in Hf. cbn [option_list] in Hf.
      eexists. split; [exact Hf|]. split; reflexivity.
  - destruct cmap as [|item rest] eqn:Ecmap; [reflexivity|].
    rewrite <- Ecmap in *.
    assert (Hne : cmap <> []) by (rewrite Ecmap; discriminate).
    pose proof (fun p g => zh_records_of inc show cmap p g Hn) as Hrec.
    rewrite zh_enrich_spec in Hrec |- * by exact Hne.
    split; [|split].
    + apply Forall_forall. intros r Hr.
      apply zh_sorted_row_inv in Hr.
      destruct Hr as (q & h & cat & _ & _ & _ & ->). reflexivity.
    + apply Forall_forall. intros r Hr.
      apply zh_sorted_row_inv in Hr.
      destruct Hr as (q & h & cat & Hq & _ & Hc & ->).
      split; [|exact Hc]. cbn [Zh.CodePoint].
      change q with (fst (q, h)). apply in_map, Hq.
    + intros p g cat Hin Hk Hc.
      destruct (Hrec p g Hin) as (data & Hd & Hf). injection Hd as <-.
      unfold Zh.row_of in Hf. rewrite Hk, Hc in Hf. cbn [option_list] in Hf.
      eexists. split; [exact Hf|]. split; reflexivity.
  - cbv zeta. repeat split; eexists; (split; [vm_compute; reflexivity|]);
      repeat split; reflexivity.
Qed.

(** The rule on A and TAB, control characters included, preview off. *)
Lemma C6_display_char_witness :
  let cmap := [(0x0041, "A"); (0x0009, "uni0009")] in
  match @En.enrich sample_host En.load_unicode_blocks cmap true false with
  | Ok data =>
      Forall (fun r =>
                En.Character r =
                if negb false && startswith_C (En.Category r)
                then [0x25A1] else [En.CodePoint r]) data /\
      Forall (fun r =>
                In (En.CodePoint r) (map fst cmap) /\
                En.Category r = @En.computed_category sample_host (En.CodePoint r))
        data /\
      forall p g,
        In (p, g) cmap -> @En.retained sample_host true p = true ->
        exists r,
          filter (fun r => En.CodePoint r =? p) data = [r] /\
          En.Category r = @En.computed_category sample_host p /\
          En.Character r =
          if negb false && startswith_C (@En.computed_category sample_host p)
          then [0x25A1] else [p]
  | Err _ => cmap = []
  end /\
  match @Zh.enrich sample_host cmap true false with
  | Ok data =>
      Forall (fun r =>
                Zh.Character r =
                if negb false && startswith_C (Zh.Category r)
                then [0x25A1] else [Zh.CodePoint r]) data /\
      Forall (fun r =>
                In (Zh.CodePoint r) (map fst cmap) /\
                @unicodedata_category sample_host (Zh.CodePoint r)
                = Some (Zh.Category r)) data /\
      forall p g category,
        In (p, g) cmap -> @Zh.retained sample_host true p = true ->
        @unicodedata_category sample_host p = Some category ->
        exists r,
          filter (fun r => Zh.CodePoint r =? p) data = [r] /\
          Zh.Category r = category /\
          Zh.Character r =
          if negb false && startswith_C category then [0x25A1] else [p]
  | Err _ => cmap = []
  end /\
  (let tab_and_a := [(0x0041, "A"); (0x0009, "uni0009")] in
   (exists data,
       @En.enrich sample_host En.load_unicode_blocks tab_and_a true false
       = Ok data /\
       map En.CodePoint data = [0x0009; 0x0041] /\
       map En.Character data = [[0x25A1]; [0x0041]]) /\
   (exists data,
       @En.enrich sample_host En.load_unicode_blocks tab_and_a true true
       = Ok data /\
       map En.Character data = [[0x0009]; [0x0041]]) /\
   (exists data,
       @Zh.enrich sample_host tab_and_a true false = Ok data /\
       map Zh.CodePoint data = [0x0009; 0x0041] /\
       map Zh.Character data = [[0x25A1]; [0x0041]]) /\
   (exists data,
       @Zh.enrich sample_host tab_and_a true true = Ok data /\
       map Zh.Character data = [[0x0009]; [0x0041]])).
Proof.
  intros cmap.
  apply (C6_display_char sample_host En.load_unicode_blocks cmap true false).
  unfold cmap. nodup_keys.
Defined.

(** C8, as the code has it: in the English-language converter a character
    whose category lookup raises is given the category Cn; the loop body
    does not raise on it, and the filter treats it as it treats Cn: no
    record without the control characters, exactly one record of category
    Cn with them.  The sibling [tmp.py] has no handler around the lookup:
    there the pass of the item raises, the handler of the loop absorbs it,
    and the item has no record under any configuration. *)
Theorem C8_category_default :
  forall (H : Host) (unicode_blocks : list block_range) (cmap : cmap_t)
         (include_control_chars show_preview : bool) (p : Z) (g : string),
    NoDup (map fst cmap) -> In (p, g) cmap -> 0 <= p <= 0x10FFFF ->
    unicodedata_category p = None ->
    ((forall s,
         fst (En.loop_body unicode_blocks include_control_chars show_preview
                (p, g) s) =
         if include_control_chars then Normal tt else Continue) /\
     exists data,
       En.enrich unicode_blocks cmap include_control_chars show_preview
       = Ok data /\
       if include_control_chars
       then exists r, filter (fun r => En.CodePoint r =? p) data = [r] /\
                      En.Category r = "Cn"
       else filter (fun r => En.CodePoint r =? p) data = []) /\
    ((forall s,
         fst (Zh.loop_body include_control_chars show_preview (p, g) s)
         = Raised CollaboratorError) /\
     exists data,
       Zh.enrich cmap include_control_chars show_preview = Ok data /\
       filter (fun r => Zh.CodePoint r =? p) data = []).
Proof.
  intros H blocks cmap inc show p g Hn Hin Hp Hcat.
  assert (Hcn : En.computed_category p = "Cn").
  { unfold En.computed_category. rewrite Hcat. reflexivity. }
  split; split.
  - intros s. rewrite en_loop_body_outcome, chr_in_range, Hcn by exact Hp.
    destruct inc; reflexivity.
  - destruct (en_control_records blocks show cmap p g "Cn" Hn Hin Hp Hcn
                eq_refl) as [(d0 & Hd0 & Hf0) (d1 & r & Hd1 & Hf1 & Hc1)].
    destruct inc.
    + exists d1. split; [exact Hd1|]. exists r. split; assumption.
    + exists d0. split; assumption.
  - intros s. rewrite zh_loop_body_outcome, chr_in_range, Hcat by exact Hp.
    reflexivity.
  - destruct (zh_records_of inc show cmap p g Hn Hin) as (data & Hd & Hf).
    exists data. split; [exact Hd|]. rewrite Hf. unfold Zh.row_of, Zh.retained.
    rewrite chr_in_range, Hcat by exact Hp. reflexivity.
Qed.

Lemma C8_category_default_witness :
  ((forall s,
       fst (@En.loop_body failing_host En.load_unicode_blocks true true
              (0x0041, "A") s) = Normal tt) /\
   exists data,
     @En.enrich failing_host En.load_unicode_blocks [(0x0041, "A")] true true
     = Ok data /\
     exists r, filter (fun r => En.CodePoint r =? 0x0041) data = [r] /\
               En.Category r = "Cn") /\
  ((forall s,
       fst (@Zh.loop_body failing_host true true (0x0041, "A") s)
       = Raised CollaboratorError) /\
   exists data,
     @Zh.enrich failing_host [(0x0041, "A")] true true = Ok data /\
     filter (fun r => Zh.CodePoint r =? 0x0041) data = []).
Proof.
  apply (C8_category_default failing_host En.load_unicode_blocks
           [(0x0041, "A")] true true 0x0041 "A").
  - nodup_keys.
  - left. reflexivity.
  - lia.
  - reflexivity.
Defined.

(** C8 as the spec words it fails in [tmp.py]: with a category lookup that
    raises and the control characters included, the rules for Cn would keep
    the record, as the English-language converter does; [tmp.py] returns no
    record at all. *)
Lemma C8_tmp_has_no_default :
  @unicodedata_category failing_host 0x0041 = None /\
  @Zh.enrich failing_host [(0x0041, "A")] true true = Ok [] /\
  exists r,
    @En.enrich failing_host En.load_unicode_blocks [(0x0041, "A")] true true
    = Ok [r] /\
    En.CodePoint r = 0x0041 /\ En.Category r = "Cn".
Proof.
  split; [reflexivity|]. split; [vm_compute; reflexivity|].
  eexists. split; [vm_compute; reflexivity|]. split; reflexivity.
Qed.

(** The sibling [tmp.py] has no handler around the category lookup: there a
    lookup that raises ends the pass of the item in the handler of the loop,
    and the item gives no record, whatever the configuration. *)
Lemma zh_category_failure_skipped :
  forall (H : Host) (cmap : cmap_t) (inc show : bool) (p : Z) (g : string),
    NoDup (map fst cmap) -> In (p, g) cmap -> 0 <= p <= 0x10FFFF ->
    unicodedata_category p = None ->
    (forall s, fst (Zh.loop_body inc show (p, g) s) = Raised CollaboratorError)
    /\
    exists data,
      Zh.enrich cmap inc show = Ok data /\
      filter (fun r => Zh.CodePoint r =? p) data = [].
Proof.
  intros H cmap inc show p g Hn Hin Hp Hcat. split.
  - intros s. rewrite zh_loop_body_outcome, chr_in_range, Hcat by exact Hp.
    reflexivity.
  - destruct (zh_records_of inc show cmap p g Hn Hin) as (data & Hd & Hf).
    exists data. split; [exact Hd|]. rewrite Hf. unfold Zh.row_of, Zh.retained.
    rewrite chr_in_range, Hcat by exact Hp. reflexivity.
Qed.

(** * The frame handed to the writers *)

Lemma formatted_codepoint_intro (q : Z) :
  0 <= q -> formatted_codepoint ("U+" ++ format_04X q) q.
Proof.
  intros Hq. destruct (format_04X_spec q Hq) as (k & Hk & Hlen & Hparse).
  exists (format_04X q), k. repeat split; assumption.
Qed.

(** C9: the frame that [save_table] hands to the writers has one row for
    each retained key of the cmap, in increasing order of the keys, and the
    [Unicode] text of the row is U+ followed by uppercase hexadecimal digits
    whose value is that key, four of them or as many as the key has when
    these are more; the rows keep the five other columns of the sorted
    records and neither [CodePoint] nor [Category]; in both converters.
    For A and U+1F600 the frame reads U+0041 and U+1F600. *)
Theorem C9_codepoint_format :
  (forall (H : Host) (unicode_blocks : list block_range) (cmap : cmap_t)
          (include_control_chars show_preview : bool),
      match En.extract_font_glyphs unicode_blocks cmap include_control_chars
              show_preview with
      | Ok glyphs_data =>
          Forall2 (fun t p => formatted_codepoint (En.col_Unicode t) p)
            (En.save_table glyphs_data)
            (sort_values (fun z => z)
               (filter (En.retained include_control_chars) (map fst cmap))) /\
          En.save_table glyphs_data =
          map (fun r =>
                 En.mk_table_row (En.Character r) (En.Unicode r)
                   (En.UnicodeName r) (En.Block r) (En.GlyphName r))
            (sort_values En.CodePoint glyphs_data) /\
          En.enrich unicode_blocks cmap include_control_chars show_preview
          = Ok (sort_values En.CodePoint glyphs_data) /\
          Forall (fun r => formatted_codepoint (En.Unicode r) (En.CodePoint r))
            (sort_values En.CodePoint glyphs_data)
      | Err _ => cmap = []
      end /\
      match Zh.extract_font_glyphs cmap include_control_chars show_preview
      with
      | Ok glyphs_data =>
          Forall2 (fun t p => formatted_codepoint (Zh.col_Unicode t) p)
            (Zh.save_table glyphs_data)
            (sort_values (fun z => z)
               (filter (Zh.retained include_control_chars) (map fst cmap))) /\
          Zh.save_table glyphs_data =
          map (fun r =>
                 Zh.mk_table_row (Zh.Character r) (Zh.Unicode r)
                   (Zh.UnicodeName r) (Zh.Block r))
            (sort_values Zh.CodePoint glyphs_data) /\
          Zh.enrich cmap include_control_chars show_preview
          = Ok (sort_values Zh.CodePoint glyphs_data) /\
          Forall (fun r => formatted_codepoint (Zh.Unicode r) (Zh.CodePoint r))
            (sort_values Zh.CodePoint glyphs_data)
      | Err _ => cmap = []
      end)
  /\
  (let cmap := [(0x1F600, "u1F600"); (0x0041, "A")] in
   (exists glyphs_data,
       @En.extract_font_glyphs sample_host En.load_unicode_blocks cmap
         true true = Ok glyphs_data /\
       map En.col_Unicode (En.save_table glyphs_data) = ["U+0041"; "U+1F600"])
   /\
   (exists glyphs_data,
       @Zh.extract_font_glyphs sample_host cmap true true = Ok glyphs_data /\
       map Zh.col_Unicode (Zh.save_table glyphs_data) = ["U+0041"; "U+1F600"]))
  /\
  ("U+" ++ format_04X 0x41 = "U+0041"
   /\ "U+" ++ format_04X 0x4E2D = "U+4E2D"
   /\ "U+" ++ format_04X 0x1F600 = "U+1F600"
   /\ "U+" ++ format_04X 0x10FFFF = "U+10FFFF")%string.
Proof.
  split; [|split; [|repeat split; reflexivity]].
  - intros H blocks cmap inc show.
    destruct cmap as [|item rest] eqn:Ecmap; [split; reflexivity|].
    rewrite <- Ecmap.
    assert (Hne : cmap <> []) by (rewrite Ecmap; discriminate).
    pose proof (en_sorted_row_inv blocks inc show cmap) as Hen.
    pose proof (zh_sorted_row_inv inc show cmap) as Hzh.
    rewrite en_enrich_spec, zh_enrich_spec, en_extract_spec, zh_extract_spec
      by exact Hne.
    split.
    + split; [|split; [reflexivity | split; [reflexivity|]]].
      * rewrite <- (sorted_rows_codepoints En.CodePoint
                      (En.row_of blocks inc show) (En.retained inc)
                      (en_row_cp blocks inc show)
                      (en_row_keep blocks inc show) cmap).
        unfold En.save_table. apply Forall2_map_same. intros r Hr.
        destruct (Hen r Hr) as (q & h & _ & Hk & ->).
        cbn [En.drop_columns En.col_Unicode En.Unicode En.CodePoint].
        apply formatted_codepoint_intro. apply (en_retained_range inc q Hk).
      * apply Forall_forall. intros r Hr.
        destruct (Hen r Hr) as (q & h & _ & Hk & ->).
        cbn [En.Unicode En.CodePoint]. apply formatted_codepoint_intro.
        apply (en_retained_range inc q Hk).
    + split; [|split; [reflexivity | split; [reflexivity|]]].
      * rewrite <- (sorted_rows_codepoints Zh.CodePoint (Zh.row_of inc show)
                      (Zh.retained inc) (zh_row_cp inc show)
                      (zh_row_keep inc show) cmap).
        unfold Zh.save_table. apply Forall2_map_same. intros r Hr.
        destruct (Hzh r Hr) as (q & h & cat & _ & Hk & _ & ->).
        cbn [Zh.drop_columns Zh.col_Unicode Zh.Unicode Zh.CodePoint].
        apply formatted_codepoint_intro. apply (zh_retained_category inc q Hk).
      * apply Forall_forall. intros r Hr.
        destruct (Hzh r Hr) as (q & h & cat & _ & Hk & _ & ->).
        cbn [Zh.Unicode Zh.CodePoint]. apply formatted_codepoint_intro.
        apply (zh_retained_category inc q Hk).
  - cbv zeta. split; eexists; (split; [vm_compute; reflexivity|]);
      vm_compute; reflexivity.
Qed.

(** * The preview flag *)

Lemma en_rows_other_columns `{Host} (unicode_blocks : list block_range)
  (inc : bool) (cmap : cmap_t) :
  map En.other_columns (En.rows_of unicode_blocks inc true cmap) =
  map En.other_columns (En.rows_of unicode_blocks inc false cmap).
Proof.
  unfold En.rows_of. induction cmap as [|[q h] rest IH]; [reflexivity|].
  cbn [flat_map]. rewrite !map_app, IH. f_equal.
  unfold En.row_of. destruct (En.retained inc q); reflexivity.
Qed.

Lemma zh_rows_other_columns `{Host} (inc : bool) (cmap : cmap_t) :
  map Zh.other_columns (Zh.rows_of inc true cmap) =
  map Zh.other_columns (Zh.rows_of inc false cmap).
Proof.
  unfold Zh.rows_of. induction cmap as [|[q h] rest IH]; [reflexivity|].
  cbn [flat_map]. rewrite !map_app, IH. f_equal.
  unfold Zh.row_of. destruct (Zh.retained inc q); [|reflexivity].
  destruct (unicodedata_category q); reflexivity.
Qed.

Lemma en_sorted_other_columns (data : list En.glyph_row) :
  map En.other_columns (sort_values En.CodePoint data) =
  sort_values (fun t => snd (fst t)) (map En.other_columns data).
Proof.
  exact (sort_values_map En.other_columns (fun t => snd (fst t)) data).
Qed.

Lemma zh_sorted_other_columns (data : list Zh.glyph_row) :
  map Zh.other_columns (sort_values Zh.CodePoint data) =
  sort_values (fun t => snd (fst t)) (map Zh.other_columns data).
Proof.
  exact (sort_values_map Zh.other_columns (fun t => snd (fst t)) data).
Qed.

(** C10: with the control-character flag fixed, the preview flag changes
    neither which code points get a record nor their order; the two
    sequences of records agree in every column other than [Character]; in
    both converters. *)
Theorem C10_preview_independent :
  forall (H : Host) (unicode_blocks : list block_range) (cmap : cmap_t)
         (include_control_chars : bool),
    match En.enrich unicode_blocks cmap include_control_chars true,
          En.enrich unicode_blocks cmap include_control_chars false with
    | Ok shown, Ok hidden =>
        map En.CodePoint shown = map En.CodePoint hidden /\
        map En.other_columns shown = map En.other_columns hidden
    | Err _, Err _ => cmap = []
    | _, _ => False
    end /\
    match Zh.enrich cmap include_control_chars true,
          Zh.enrich cmap include_control_chars false with
    | Ok shown, Ok hidden =>
        map Zh.CodePoint shown = map Zh.CodePoint hidden /\
        map Zh.other_columns shown = map Zh.other_columns hidden
    | Err _, Err _ => cmap = []
    | _, _ => False
    end.
Proof.
  intros H blocks cmap inc.
  destruct cmap as [|item rest] eqn:Ecmap; [split; reflexivity|].
  rewrite <- Ecmap.
  assert (Hne : cmap <> []) by (rewrite Ecmap; discriminate).
  rewrite !en_enrich_spec, !zh_enrich_spec by exact Hne.
  assert (Hen : map En.other_columns
                  (sort_values En.CodePoint (En.rows_of blocks inc true cmap))
                = map En.other_columns
                    (sort_values En.CodePoint (En.rows_of blocks inc false cmap))).
  { rewrite !en_sorted_other_columns, en_rows_other_columns. reflexivity. }
  assert (Hzh : map Zh.other_columns
                  (sort_values Zh.CodePoint (Zh.rows_of inc true cmap))
                = map Zh.other_columns
                    (sort_values Zh.CodePoint (Zh.rows_of inc false cmap))).
  { rewrite !zh_sorted_other_columns, zh_rows_other_columns. reflexivity. }
  split; (split; [|assumption]).
  - apply (f_equal (map (fun t => snd (fst t)))) in Hen.
    rewrite !map_map in Hen. exact Hen.
  - apply (f_equal (map (fun t => snd (fst t)))) in Hzh.
    rewrite !map_map in Hzh. exact Hzh.
Qed.

(** * The scenario of the spec *)

(** A capital A and the ideograph U+4E2D, default configuration: two
    records, in this order, with the blocks of the English table. *)
Example scenario_latin_cjk :
  @En.enrich sample_host En.load_unicode_blocks
    [(0x4E2D, "uni4E2D"); (0x0041, "A")] false true =
  Ok [ {| En.Character := [0x0041];
          En.Unicode := "U+0041";
          En.UnicodeName := "LATIN CAPITAL LETTER A";
          En.Block := "Basic Latin";
          En.GlyphName := "glyph_A";
          En.CodePoint := 0x0041;
          En.Category := "Lu" |};
       {| En.Character := [0x4E2D];
          En.Unicode := "U+4E2D";
          En.UnicodeName := "CJK UNIFIED IDEOGRAPH-4E2D";
          En.Block := "CJK Unified Ideographs";
          En.GlyphName := "glyph_uni4E2D";
          En.CodePoint := 0x4E2D;
          En.Category := "Lo" |} ].
Proof. vm_compute. reflexivity. Qed.

Example scenario_tab_preview_off :
  @Zh.enrich sample_host [(0x0009, "uni0009")] true false =
  Ok [ {| Zh.Character := [0x25A1];
          Zh.Unicode := "U+0009";
          Zh.UnicodeName := "未命名字符";
          Zh.Block := "基本拉丁文";
          Zh.CodePoint := 0x0009;
          Zh.Category := "Cc" |} ].
Proof. vm_compute. reflexivity. Qed.

(** * Further properties of the block tables *)

Lemma compatible_same_name (r1 r2 : block_range) (p : Z) :
  compatible r1 r2 = true -> in_range r1 p = true -> in_range r2 p = true ->
  range_name r1 = range_name r2.
Proof.
  unfold compatible. rewrite !orb_true_iff, !Z.ltb_lt, String.eqb_eq.
  intros Hc H1 H2. apply in_range_iff in H1. apply in_range_iff in H2.
  destruct Hc as [[Hd|Hd]|Hn]; [lia | lia | exact Hn].
Qed.

(** In an unambiguous table every range that contains the code point names
    the first one that does. *)
Lemma find_unambiguous (table : list block_range) (p : Z) (r : block_range) :
  unambiguous table = true -> In r table -> in_range r p = true ->
  exists r0, find (fun x => in_range x p) table = Some r0 /\
             range_name r0 = range_name r.
Proof.
  intros Hu Hr Hp. unfold unambiguous in Hu. rewrite forallb_forall in Hu.
  pose proof (find_split (fun x => in_range x p) table) as Hf.
  destruct (find _ table) as [r0|].
  - exists r0. split; [reflexivity|].
    destruct Hf as (pre & post & E & H0 & _).
    assert (In r0 table).
    { rewrite E. apply in_or_app. right. left. reflexivity. }
    pose proof (Hu r0 H) as Hrow. rewrite forallb_forall in Hrow.
    exact (compatible_same_name r0 r p (Hrow r Hr) H0 Hp).
  - rewrite (Hf r Hr) in Hp. discriminate.
Qed.

Lemma en_concat_unambiguous :
  unambiguous (En.blocks ++ En.private_use_blocks) = true.
Proof. vm_compute. reflexivity. Qed.

Lemma en_sorted_unambiguous : unambiguous En.load_unicode_blocks = true.
Proof. vm_compute. reflexivity. Qed.

Lemma zh_unambiguous : unambiguous Zh.blocks = true.
Proof. vm_compute. reflexivity. Qed.

(** X1: in the tables of both programs a code point has one block only:
    whichever range of the table contains it, the lookup returns the name of
    that range. *)
Theorem block_lookup_unambiguous :
  forall (p : Z) (r : block_range),
    range_start r <= p <= range_end r ->
    (In r En.load_unicode_blocks ->
     En.get_unicode_block En.load_unicode_blocks p = range_name r) /\
    (In r Zh.blocks -> Zh.get_unicode_block p = range_name r).
Proof.
  intros p r Hp. apply in_range_iff in Hp. split; intros Hr.
  - rewrite en_lookup_find.
    destruct (find_unambiguous _ p r en_sorted_unambiguous Hr Hp)
      as (r0 & -> & E). exact E.
  - unfold Zh.get_unicode_block. rewrite zh_lookup_find.
    destruct (find_unambiguous _ p r zh_unambiguous Hr Hp) as (r0 & -> & E).
    exact E.
Qed.

Lemma block_lookup_unambiguous_witness :
  En.get_unicode_block En.load_unicode_blocks 0x4E2D = "CJK Unified Ideographs"
  /\ Zh.get_unicode_block 0x4E2D = "中日韩统一表意文字".
Proof.
  split.
  - apply (block_lookup_unambiguous 0x4E2D
             (0x4E00, 0x9FFF, "CJK Unified Ideographs")).
    + cbn. lia.
    + apply (nth_error_In _ 120). reflexivity.
  - apply (block_lookup_unambiguous 0x4E2D
             (0x4E00, 0x9FFF, "中日韩统一表意文字")).
    + cbn. lia.
    + apply (nth_error_In _ 115). reflexivity.
Defined.

(** * The sort of [load_unicode_blocks] *)

Section ListSort.
Context {A : Type} (lt : A -> A -> bool).

Lemma insert_sorted_permutation (x : A) (l : list A) :
  Permutation (insert_sorted lt x l) (x :: l).
Proof.
  induction l as [|y l IH]; simpl; [reflexivity|].
  destruct (lt x y); [reflexivity|]. rewrite IH. apply perm_swap.
Qed.

Lemma stable_sort_permutation (l : list A) : Permutation (stable_sort lt l) l.
Proof.
  unfold stable_sort.
  assert (Hgen : forall acc,
             Permutation (fold_left (fun a x => insert_sorted lt x a) l acc)
               (acc ++ l)).
  { induction l as [|x l IH]; intros acc; simpl.
    - rewrite app_nil_r. reflexivity.
    - rewrite IH, insert_sorted_permutation. apply Permutation_middle. }
  exact (Hgen []).
Qed.

Variable le : A -> A -> Prop.
Hypothesis le_trans : forall x y z, le x y -> le y z -> le x z.
Hypothesis lt_le : forall x y, lt x y = true -> le x y.
Hypothesis not_lt_le : forall x y, lt x y = false -> le y x.

Lemma insert_sorted_ordered (x : A) (l : list A) :
  StronglySorted le l -> StronglySorted le (insert_sorted lt x l).
Proof.
  induction l as [|y l IH]; simpl; intros Hs.
  - constructor; constructor.
  - apply StronglySorted_inv in Hs. destruct Hs as [Hl Hy].
    destruct (lt x y) eqn:Hxy.
    + constructor; [constructor; assumption|].
      constructor; [apply lt_le; exact Hxy|].
      eapply Forall_impl; [|exact Hy]. intros z Hz.
      eapply le_trans; [apply lt_le; exact Hxy | exact Hz].
    + constructor; [apply IH; exact Hl|].
      rewrite insert_sorted_permutation.
      constructor; [apply not_lt_le; exact Hxy | exact Hy].
Qed.

Lemma stable_sort_ordered (l : list A) : StronglySorted le (stable_sort lt l).
Proof.
  unfold stable_sort.
  assert (Hgen : forall acc, StronglySorted le acc ->
             StronglySorted le
               (fold_left (fun a x => insert_sorted lt x a) l acc)).
  { induction l as [|x l IH]; intros acc Hs; simpl; [exact Hs|].
    apply IH, insert_sorted_ordered, Hs. }
  apply Hgen. constructor.
Qed.
End ListSort.

Lemma tuple_lt_start (a b : block_range) :
  tuple_lt a b = true -> range_start a <= range_start b.
Proof.
  unfold tuple_lt.
  destruct (Z.ltb_spec (range_start a) (range_start b)); [lia|].
  destruct (Z.ltb_spec (range_start b) (range_start a)); [discriminate|lia].
Qed.

Lemma tuple_not_lt_start (a b : block_range) :
  tuple_lt a b = false -> range_start b <= range_start a.
Proof.
  unfold tuple_lt.
  destruct (Z.ltb_spec (range_start a) (range_start b)); [discriminate|lia].
Qed.

(** X2: [load_unicode_blocks] returns the ranges of its two lists, each as
    often as it is listed, in non-decreasing order of their start; and the
    sort changes no lookup: on every integer the sorted table answers as
    the two lists in their written order do. *)
Theorem load_unicode_blocks_sorted :
  Permutation En.load_unicode_blocks (En.blocks ++ En.private_use_blocks) /\
  StronglySorted (fun a b => range_start a <= range_start b)
    En.load_unicode_blocks /\
  forall p : Z,
    En.get_unicode_block En.load_unicode_blocks p =
    En.get_unicode_block (En.blocks ++ En.private_use_blocks) p.
Proof.
  assert (Hperm : Permutation En.load_unicode_blocks
                    (En.blocks ++ En.private_use_blocks)).
  { apply stable_sort_permutation. }
  split; [exact Hperm|]. split.
  - apply (stable_sort_ordered tuple_lt
             (fun a b => range_start a <= range_start b)).
    + intros x y z. lia.
    + exact tuple_lt_start.
    + exact tuple_not_lt_start.
  - intros p. rewrite (en_lookup_find En.load_unicode_blocks).
    pose proof (find_split (fun r => in_range r p) En.load_unicode_blocks)
      as Hf.
    destruct (find _ En.load_unicode_blocks) as [r|].
    + destruct Hf as (pre & post & E & Hin & _).
      assert (Hr : In r (En.blocks ++ En.private_use_blocks)).
      { apply (Permutation_in _ Hperm). rewrite E.
        apply in_or_app. right. left. reflexivity. }
      rewrite en_lookup_find.
      destruct (find_unambiguous _ p r en_concat_unambiguous Hr Hin)
        as (r0 & -> & E0). symmetry. exact E0.
    + rewrite en_lookup_find.
      pose proof (find_split (fun r => in_range r p)
                    (En.blocks ++ En.private_use_blocks)) as Hg.
      destruct (find _ (En.blocks ++ En.private_use_blocks)) as [r|];
        [|reflexivity].
      destruct Hg as (pre & post & E & Hin & _).
      assert (Hr : In r En.load_unicode_blocks).
      { apply (Permutation_in _ (Permutation_sym Hperm)). rewrite E.
        apply in_or_app. right. left. reflexivity. }
      rewrite (Hf r Hr) in Hin. discriminate.
Qed.

Lemma lookup_misses (table : list block_range) (lo hi p : Z) :
  misses lo hi table = true -> lo <= p <= hi ->
  find (fun r => in_range r p) table = None.
Proof.
  intros Hm Hp. unfold misses in Hm. rewrite forallb_forall in Hm.
  pose proof (find_split (fun r => in_range r p) table) as Hf.
  destruct (find _ table) as [r|]; [|reflexivity].
  destruct Hf as (pre & post & E & Hin & _).
  assert (Hr : In r table).
  { rewrite E. apply in_or_app. right. left. reflexivity. }
  specialize (Hm r Hr). apply in_range_iff in Hin.
  rewrite orb_true_iff, !Z.ltb_lt in Hm. lia.
Qed.

(** X3: neither table has a block for the surrogates: for every code point
    from 0xD800 to 0xDFFF the lookup returns the sentinel. *)
Theorem surrogates_have_no_block :
  forall p : Z,
    0xD800 <= p <= 0xDFFF ->
    En.get_unicode_block En.load_unicode_blocks p = "Unassigned" /\
    Zh.get_unicode_block p = "其他区块".
Proof.
  intros p Hp. unfold Zh.get_unicode_block.
  rewrite en_lookup_find, zh_lookup_find.
  rewrite (lookup_misses En.load_unicode_blocks 0xD800 0xDFFF p)
    by (vm_compute; reflexivity || exact Hp).
  rewrite (lookup_misses Zh.blocks 0xD800 0xDFFF p)
    by (vm_compute; reflexivity || exact Hp).
  split; reflexivity.
Qed.

Lemma surrogates_have_no_block_witness :
  En.get_unicode_block En.load_unicode_blocks 0xDC00 = "Unassigned" /\
  Zh.get_unicode_block 0xDC00 = "其他区块".
Proof. apply (surrogates_have_no_block 0xDC00). lia. Defined.

(** * Further properties of the enrichment *)

Lemma strongly_sorted_filter {A : Type} (R : A -> A -> Prop) (f : A -> bool)
  (l : list A) :
  StronglySorted R l -> StronglySorted R (filter f l).
Proof.
  induction 1 as [|x l Hs IH Hx]; simpl; [constructor|].
  destruct (f x); [|exact IH]. constructor; [exact IH|].
  rewrite Forall_forall in Hx |- *. intros y Hy.
  apply filter_In in Hy. apply Hx, Hy.
Qed.

Lemma strict_sorted_nodup (l : list Z) : StronglySorted Z.lt l -> NoDup l.
Proof.
  induction 1 as [|x l Hs IH Hx]; constructor; [|exact IH].
  intros Hin. rewrite Forall_forall in Hx. specialize (Hx x Hin). lia.
Qed.

Lemma sorted_keys_sorted {A : Type} (key : A -> Z) (l : list A) :
  StronglySorted Z.lt (map key l) ->
  StronglySorted (fun x y => key x <= key y) l.
Proof.
  induction l as [|x l IH]; intros Hs; [constructor|].
  simpl in Hs. apply StronglySorted_inv in Hs. destruct Hs as [Hl Hx].
  constructor; [apply IH; exact Hl|].
  rewrite Forall_forall in Hx |- *. intros y Hy.
  assert (key x < key y) by (apply Hx, in_map, Hy). lia.
Qed.

(** A frame whose keys already increase is left as it is by the sort. *)
Lemma sort_values_of_sorted {A : Type} (key : A -> Z) (l : list A) :
  StronglySorted Z.lt (map key l) -> sort_values key l = l.
Proof.
  intros Hs. symmetry. apply sort_values_unique.
  - apply strict_sorted_nodup, Hs.
  - reflexivity.
  - apply sorted_keys_sorted, Hs.
Qed.

Lemma nodup_keys_filter {A : Type} (key : A -> Z) (f : A -> bool)
  (l : list A) :
  NoDup (map key l) -> NoDup (map key (filter f l)).
Proof.
  induction l as [|x l IH]; intros Hn; [constructor|].
  simpl in Hn. inversion Hn as [|k ks Hx Hl]; subst. simpl.
  destruct (f x); [|apply IH, Hl]. simpl. constructor; [|apply IH, Hl].
  intros Hin. apply Hx. apply in_map_iff in Hin.
  destruct Hin as (y & E & Hy). apply filter_In in Hy.
  rewrite <- E. apply in_map, Hy.
Qed.

Lemma filter_sort_values {A : Type} (key : A -> Z) (f : A -> bool)
  (l : list A) :
  NoDup (map key l) ->
  filter f (sort_values key l) = sort_values key (filter f l).
Proof.
  intros Hn. apply sort_values_unique.
  - apply nodup_keys_filter, Hn.
  - apply Permutation_filter, sort_values_perm.
  - apply strongly_sorted_filter, sort_values_sorted.
Qed.

Lemma en_retained_true `{Host} (p : Z) : En.retained true p = in_code_space p.
Proof.
  unfold En.retained, in_code_space, chr. cbn [negb andb].
  destruct (Z.ltb_spec p (- 2 ^ 31)); destruct (Z.ltb_spec (2 ^ 31 - 1) p);
    destruct (Z.ltb_spec p 0); destruct (Z.ltb_spec 0x10FFFF p);
    destruct (Z.leb_spec 0 p); destruct (Z.leb_spec p 0x10FFFF);
    cbn; try reflexivity; lia.
Qed.

Section Order.
Context `{Host}.
Variable unicode_blocks : list block_range.
Variables inc show : bool.

Lemma en_rows_nodup (cmap : cmap_t) :
  NoDup (map fst cmap) ->
  NoDup (map En.CodePoint (En.rows_of unicode_blocks inc show cmap)).
Proof.
  exact (rows_nodup En.CodePoint (En.row_of unicode_blocks inc show)
           (En.retained inc) (en_row_cp unicode_blocks inc show)
           (en_row_keep unicode_blocks inc show) cmap).
Qed.

Lemma zh_rows_nodup (cmap : cmap_t) :
  NoDup (map fst cmap) ->
  NoDup (map Zh.CodePoint (Zh.rows_of inc show cmap)).
Proof.
  exact (rows_nodup Zh.CodePoint (Zh.row_of inc show) (Zh.retained inc)
           (zh_row_cp inc show) (zh_row_keep inc show) cmap).
Qed.

Lemma en_rows_codepoints (cmap : cmap_t) :
  map En.CodePoint (En.rows_of unicode_blocks inc show cmap) =
  filter (En.retained inc) (map fst cmap).
Proof.
  exact (rows_codepoints En.CodePoint (En.row_of unicode_blocks inc show)
           (En.retained inc) (en_row_cp unicode_blocks inc show)
           (en_row_keep unicode_blocks inc show) cmap).
Qed.

Lemma zh_rows_codepoints (cmap : cmap_t) :
  map Zh.CodePoint (Zh.rows_of inc show cmap) =
  filter (Zh.retained inc) (map fst cmap).
Proof.
  exact (rows_codepoints Zh.CodePoint (Zh.row_of inc show) (Zh.retained inc)
           (zh_row_cp inc show) (zh_row_keep inc show) cmap).
Qed.
End Order.

Lemma permutation_nonempty {A : Type} (l l' : list A) :
  Permutation l l' -> l <> [] -> l' <> [].
Proof.
  intros Hp Hne ->. apply Hne. apply Permutation_nil. symmetry. exact Hp.
Qed.

(** X4: the order in which the cmap yields its items does not matter: two
    cmaps with the same items (and distinct keys) give the same sorted
    sequence of records, in both converters. *)
Theorem enrich_order_independent :
  forall (H : Host) (unicode_blocks : list block_range) (cmap cmap' : cmap_t)
         (include_control_chars show_preview : bool),
    NoDup (map fst cmap) -> Permutation cmap cmap' ->
    En.enrich unicode_blocks cmap include_control_chars show_preview =
    En.enrich unicode_blocks cmap' include_control_chars show_preview /\
    Zh.enrich cmap include_control_chars show_preview =
    Zh.enrich cmap' include_control_chars show_preview.
Proof.
  intros H blocks cmap cmap' inc show Hn Hp.
  destruct cmap as [|item rest] eqn:Ecmap.
  { apply Permutation_nil in Hp. subst cmap'. split; reflexivity. }
  rewrite <- Ecmap in *.
  assert (Hne : cmap <> []) by (rewrite Ecmap; discriminate).
  assert (Hne' : cmap' <> []) by exact (permutation_nonempty _ _ Hp Hne).
  assert (Hn' : NoDup (map fst cmap')).
  { eapply Permutation_NoDup; [|exact Hn]. apply Permutation_map, Hp. }
  rewrite !en_enrich_spec, !zh_enrich_spec by assumption.
  split; f_equal; apply sort_values_unique.
  - apply en_rows_nodup, Hn'.
  - rewrite sort_values_perm. unfold En.rows_of.
    apply Permutation_flat_map, Hp.
  - apply sort_values_sorted.
  - apply zh_rows_nodup, Hn'.
  - rewrite sort_values_perm. unfold Zh.rows_of.
    apply Permutation_flat_map, Hp.
  - apply sort_values_sorted.
Qed.

Lemma enrich_order_independent_witness :
  @En.enrich sample_host En.load_unicode_blocks
    [(0x4E2D, "uni4E2D"); (0x0041, "A")] false true =
  @En.enrich sample_host En.load_unicode_blocks
    [(0x0041, "A"); (0x4E2D, "uni4E2D")] false true /\
  @Zh.enrich sample_host [(0x4E2D, "uni4E2D"); (0x0041, "A")] false true =
  @Zh.enrich sample_host [(0x0041, "A"); (0x4E2D, "uni4E2D")] false true.
Proof.
  apply (enrich_order_independent sample_host En.load_unicode_blocks
           [(0x4E2D, "uni4E2D"); (0x0041, "A")]
           [(0x0041, "A"); (0x4E2D, "uni4E2D")] false true).
  - nodup_keys.
  - apply perm_swap.
Defined.

(** X5: for a cmap whose keys already increase, [extract_font_glyphs]
    returns the rows in their final order: the sort of [save_table] changes
    nothing; in both converters. *)
Theorem sorted_cmap_needs_no_sort :
  forall (H : Host) (unicode_blocks : list block_range) (cmap : cmap_t)
         (include_control_chars show_preview : bool),
    StronglySorted Z.lt (map fst cmap) ->
    En.enrich unicode_blocks cmap include_control_chars show_preview =
    En.extract_font_glyphs unicode_blocks cmap include_control_chars
      show_preview /\
    Zh.enrich cmap include_control_chars show_preview =
    Zh.extract_font_glyphs cmap include_control_chars show_preview.
Proof.
  intros H blocks cmap inc show Hs.
  destruct cmap as [|item rest] eqn:Ecmap; [split; reflexivity|].
  rewrite <- Ecmap in *.
  assert (Hne : cmap <> []) by (rewrite Ecmap; discriminate).
  rewrite en_enrich_spec, zh_enrich_spec, en_extract_spec, zh_extract_spec
    by exact Hne.
  split; f_equal; apply sort_values_of_sorted.
  - rewrite en_rows_codepoints. apply strongly_sorted_filter, Hs.
  - rewrite zh_rows_codepoints. apply strongly_sorted_filter, Hs.
Qed.

Lemma sorted_cmap_needs_no_sort_witness :
  @En.enrich sample_host En.load_unicode_blocks
    [(0x0009, "uni0009"); (0x0041, "A"); (0x4E2D, "uni4E2D")] true true =
  @En.extract_font_glyphs sample_host En.load_unicode_blocks
    [(0x0009, "uni0009"); (0x0041, "A"); (0x4E2D, "uni4E2D")] true true /\
  @Zh.enrich sample_host
    [(0x0009, "uni0009"); (0x0041, "A"); (0x4E2D, "uni4E2D")] true true =
  @Zh.extract_font_glyphs sample_host
    [(0x0009, "uni0009"); (0x0041, "A"); (0x4E2D, "uni4E2D")] true true.
Proof.
  apply (sorted_cmap_needs_no_sort sample_host En.load_unicode_blocks
           [(0x0009, "uni0009"); (0x0041, "A"); (0x4E2D, "uni4E2D")]
           true true).
  cbn [map fst].
  repeat (constructor; [|repeat (constructor; [lia|]); constructor]).
  constructor.
Defined.

Section Exclusion.
Context `{Host}.

Lemma en_rows_excluding (unicode_blocks : list block_range) (show : bool)
  (cmap : cmap_t) :
  En.rows_of unicode_blocks false show cmap =
  filter (fun r => negb (startswith_C (En.Category r)))
    (En.rows_of unicode_blocks true show cmap).
Proof.
  unfold En.rows_of. induction cmap as [|[q h] rest IH]; [reflexivity|].
  cbn [flat_map]. rewrite filter_app, <- IH. f_equal.
  unfold En.row_of, En.retained.
  destruct (chr q) as [c|e] eqn:E; [|reflexivity].
  apply chr_Ok_inv in E. destruct E as [-> _]. cbn [negb andb option_list filter].
  cbn [En.Category].
  destruct (startswith_C (En.computed_category q)); reflexivity.
Qed.

Lemma zh_rows_excluding (show : bool) (cmap : cmap_t) :
  Zh.rows_of false show cmap =
  filter (fun r => negb (startswith_C (Zh.Category r)))
    (Zh.rows_of true show cmap).
Proof.
  unfold Zh.rows_of. induction cmap as [|[q h] rest IH]; [reflexivity|].
  cbn [flat_map]. rewrite filter_app, <- IH. f_equal.
  unfold Zh.row_of, Zh.retained.
  destruct (chr q) as [c|e] eqn:E; [|reflexivity].
  apply chr_Ok_inv in E. destruct E as [-> _].
  destruct (unicodedata_category q) as [cat|]; [|reflexivity].
  cbn [negb andb option_list filter]. cbn [Zh.Category].
  destruct (startswith_C cat); reflexivity.
Qed.
End Exclusion.

(** X6: excluding the control characters is the same as including them and
    then removing the records whose category starts with C; in both
    converters. *)
Theorem excluding_is_filtering :
  forall (H : Host) (unicode_blocks : list block_range) (cmap : cmap_t)
         (show_preview : bool),
    NoDup (map fst cmap) ->
    En.enrich unicode_blocks cmap false show_preview =
    match En.enrich unicode_blocks cmap true show_preview with
    | Ok data =>
        Ok (filter (fun r => negb (startswith_C (En.Category r))) data)
    | Err e => Err e
    end /\
    Zh.enrich cmap false show_preview =
    match Zh.enrich cmap true show_preview with
    | Ok data =>
        Ok (filter (fun r => negb (startswith_C (Zh.Category r))) data)
    | Err e => Err e
    end.
Proof.
  intros H blocks cmap show Hn.
  destruct cmap as [|item rest] eqn:Ecmap; [split; reflexivity|].
  rewrite <- Ecmap in *.
  assert (Hne : cmap <> []) by (rewrite Ecmap; discriminate).
  rewrite !en_enrich_spec, !zh_enrich_spec by exact Hne.
  split; f_equal.
  - rewrite en_rows_excluding. symmetry. apply filter_sort_values.
    apply en_rows_nodup, Hn.
  - rewrite zh_rows_excluding. symmetry. apply filter_sort_values.
    apply zh_rows_nodup, Hn.
Qed.

Lemma excluding_is_filtering_witness :
  @En.enrich sample_host En.load_unicode_blocks
    [(0x0041, "A"); (0x0009, "uni0009")] false true =
  match @En.enrich sample_host En.load_unicode_blocks
          [(0x0041, "A"); (0x0009, "uni0009")] true true with
  | Ok data => Ok (filter (fun r => negb (startswith_C (En.Category r))) data)
  | Err e => Err e
  end /\
  @Zh.enrich sample_host [(0x0041, "A"); (0x0009, "uni0009")] false true =
  match @Zh.enrich sample_host [(0x0041, "A"); (0x0009, "uni0009")] true true
  with
  | Ok data => Ok (filter (fun r => negb (startswith_C (Zh.Category r))) data)
  | Err e => Err e
  end.
Proof.
  apply (excluding_is_filtering sample_host En.load_unicode_blocks
           [(0x0041, "A"); (0x0009, "uni0009")] true).
  nodup_keys.
Defined.

(** X7: with the control characters included, the English-language
    converter loses nothing but the keys that [chr] rejects: the code points
    of its records are the keys of the cmap from 0 to 0x10FFFF, sorted. *)
Theorem inclusive_keeps_code_space :
  forall (H : Host) (unicode_blocks : list block_range) (cmap : cmap_t)
         (show_preview : bool),
    match En.enrich unicode_blocks cmap true show_preview with
    | Ok data =>
        map En.CodePoint data =
        sort_values (fun z => z) (filter in_code_space (map fst cmap))
    | Err _ => cmap = []
    end.
Proof.
  intros H blocks cmap show.
  destruct cmap as [|item rest] eqn:Ecmap; [reflexivity|].
  rewrite <- Ecmap.
  rewrite en_enrich_spec by (rewrite Ecmap; discriminate).
  rewrite (sort_values_map En.CodePoint (fun z => z)).
  rewrite en_rows_codepoints. f_equal.
  apply filter_ext. intros p. apply en_retained_true.
Qed.

(** X8: how [convert_thread] ends is decided by the keys of the cmap and by
    the writer: the warning when the cmap has keys and none is retained; the
    error message for the empty cmap, and otherwise only when the writer
    raises on the frame; the frame, written or not, has as its [Unicode]
    column the formatted retained keys in increasing order. *)
Theorem convert_thread_outcomes :
  forall (H : Host) (write : list En.table_row -> option exn)
         (unicode_blocks : list block_range) (cmap : cmap_t)
         (include_control_chars show_preview : bool),
    let kept := filter (En.retained include_control_chars) (map fst cmap) in
    match En.convert_thread write unicode_blocks cmap include_control_chars
            show_preview with
    | En.ConversionFailed e =>
        cmap = [] \/
        (kept <> [] /\
         exists table,
           write table = Some e /\
           map En.col_Unicode table =
           map (fun p => ("U+" ++ format_04X p)%string)
             (sort_values (fun z => z) kept))
    | En.NoCharacters => cmap <> [] /\ kept = []
    | En.Saved table =>
        kept <> [] /\ write table = None /\
        map En.col_Unicode table =
        map (fun p => ("U+" ++ format_04X p)%string)
          (sort_values (fun z => z) kept)
    end.
Proof.
  intros H write blocks cmap inc show kept. subst kept.
  unfold En.convert_thread.
  destruct cmap as [|item rest] eqn:Ecmap; [left; reflexivity|].
  rewrite <- Ecmap in *.
  assert (Hne : cmap <> []) by (rewrite Ecmap; discriminate).
  rewrite en_extract_spec by exact Hne.
  pose proof (en_rows_codepoints blocks inc show cmap) as Hcp.
  pose proof (en_sorted_row_inv blocks inc show cmap) as Hinv.
  destruct (En.rows_of blocks inc show cmap) as [|r0 rows] eqn:Erows.
  - split; [exact Hne|]. rewrite <- Hcp. reflexivity.
  - assert (Hkept : filter (En.retained inc) (map fst cmap) <> [])
      by (rewrite <- Hcp; discriminate).
    assert (Hcol : map En.col_Unicode (En.save_table (r0 :: rows)) =
                   map (fun p => ("U+" ++ format_04X p)%string)
                     (sort_values (fun z => z)
                        (filter (En.retained inc) (map fst cmap)))).
    { unfold En.save_table. rewrite map_map.
      rewrite <- Hcp, <- (sort_values_map En.CodePoint (fun z => z)), map_map.
      apply map_ext_in. intros r Hr.
      destruct (Hinv r Hr) as (q & h & _ & _ & ->). reflexivity. }
    cbv zeta. destruct (write (En.save_table (r0 :: rows))) as [e|] eqn:Hw.
    + right. split; [exact Hkept|]. eexists. split; [exact Hw | exact Hcol].
    + split; [exact Hkept|]. split; [exact Hw | exact Hcol].
Qed.

(** * Further properties of the formatted code point *)

Lemma format_04X_injective (a b : Z) :
  0 <= a -> 0 <= b -> format_04X a = format_04X b -> a = b.
Proof.
  intros Ha Hb E.
  destruct (format_04X_spec a Ha) as (ka & _ & _ & Pa).
  destruct (format_04X_spec b Hb) as (kb & _ & _ & Pb).
  rewrite E in Pa. rewrite Pa in Pb. injection Pb as ->. reflexivity.
Qed.

Lemma nodup_map_injective_in {A B : Type} (f : A -> B) (l : list A) :
  (forall x y, In x l -> In y l -> f x = f y -> x = y) ->
  NoDup l -> NoDup (map f l).
Proof.
  induction l as [|a l IH]; intros Hinj Hn; [constructor|].
  inversion Hn as [|k ks Ha Hl]; subst. simpl. constructor.
  - intros Hin. apply in_map_iff in Hin. destruct Hin as (y & E & Hy).
    apply Ha. rewrite (Hinj a y); [exact Hy | left; reflexivity
                                  | right; exact Hy | symmetry; exact E].
  - apply IH; [|exact Hl]. intros x y Hx Hy. apply Hinj; right; assumption.
Qed.

Lemma format_width (q : Z) :
  0 <= q <= 0x10FFFF ->
  (6 <= String.length ("U+" ++ format_04X q) <= 8)%nat.
Proof.
  intros Hq. destruct (format_04X_spec q ltac:(lia)) as (k & Hk & Hlen & _).
  cbn [String.append String.length]. rewrite Hlen.
  assert (Hk5 : (k <= 5)%nat).
  { destruct Hk as [[_ ->]|[Hlo _]]; [lia|].
    destruct (Nat.le_gt_cases k 5) as [Hle|Hgt]; [exact Hle|].
    assert (16 ^ 6 <= 16 ^ Z.of_nat k) by (apply Z.pow_le_mono_r; lia).
    change (16 ^ 6) with 16777216 in *. lia. }
  lia.
Qed.

(** X9: the text of the [Unicode] column identifies the record: no two
    records of the output carry the same text; in both converters. *)
Theorem unicode_column_is_key :
  forall (H : Host) (unicode_blocks : list block_range) (cmap : cmap_t)
         (include_control_chars show_preview : bool),
    NoDup (map fst cmap) ->
    match En.enrich unicode_blocks cmap include_control_chars show_preview
    with
    | Ok data => NoDup (map En.Unicode data)
    | Err _ => cmap = []
    end /\
    match Zh.enrich cmap include_control_chars show_preview with
    | Ok data => NoDup (map Zh.Unicode data)
    | Err _ => cmap = []
    end.
Proof.
  intros H blocks cmap inc show Hn.
  destruct cmap as [|item rest] eqn:Ecmap; [split; reflexivity|].
  rewrite <- Ecmap in *.
  assert (Hne : cmap <> []) by (rewrite Ecmap; discriminate).
  rewrite en_enrich_spec, zh_enrich_spec by exact Hne.
  split.
  - apply nodup_map_injective_in.
    + intros x y Hx Hy E.
      destruct (en_sorted_row_inv blocks inc show cmap x Hx)
        as (q & h & Hq & Kq & ->).
      destruct (en_sorted_row_inv blocks inc show cmap y Hy)
        as (q' & h' & Hq' & Kq' & ->).
      cbn [En.Unicode] in E. injection E as E.
      apply format_04X_injective in E;
        try (eapply en_retained_range; eassumption).
      subst q'.
      assert (h = h'); [|subst h'; reflexivity].
      apply (NoDup_map_inv fst) in Hn as Hnd.
      clear - Hn Hq Hq'. induction cmap as [|[a b] l IH]; [destruct Hq|].
      cbn [map fst] in Hn. inversion Hn as [|k ks Ha Hl]; subst.
      destruct Hq as [E1|I1]; destruct Hq' as [E2|I2].
      * congruence.
      * exfalso. apply Ha. injection E1 as -> _.
        change q with (fst (q, h')). apply in_map, I2.
      * exfalso. apply Ha. injection E2 as -> _.
        change q with (fst (q, h)). apply in_map, I1.
      * apply IH; assumption.
    + eapply NoDup_map_inv. eapply Permutation_NoDup.
      * apply Permutation_map. symmetry. apply sort_values_perm.
      * apply en_rows_nodup, Hn.
  - apply nodup_map_injective_in.
    + intros x y Hx Hy E.
      destruct (zh_sorted_row_inv inc show cmap x Hx)
        as (q & h & cat & Hq & Kq & Cq & ->).
      destruct (zh_sorted_row_inv inc show cmap y Hy)
        as (q' & h' & cat' & Hq' & Kq' & Cq' & ->).
      cbn [Zh.Unicode] in E. injection E as E.
      apply format_04X_injective in E;
        try (eapply zh_retained_category; eassumption).
      subst q'. rewrite Cq in Cq'. injection Cq' as <-. reflexivity.
    + eapply NoDup_map_inv. eapply Permutation_NoDup.
      * apply Permutation_map. symmetry. apply sort_values_perm.
      * apply zh_rows_nodup, Hn.
Qed.

Lemma unicode_column_is_key_witness :
  match @En.enrich sample_host En.load_unicode_blocks
          [(0x0041, "A"); (0x4E2D, "uni4E2D")] false true with
  | Ok data => NoDup (map En.Unicode data)
  | Err _ => [(0x0041, "A"); (0x4E2D, "uni4E2D")] = []
  end /\
  match @Zh.enrich sample_host [(0x0041, "A"); (0x4E2D, "uni4E2D")] false true
  with
  | Ok data => NoDup (map Zh.Unicode data)
  | Err _ => [(0x0041, "A"); (0x4E2D, "uni4E2D")] = []
  end.
Proof.
  apply (unicode_column_is_key sample_host En.load_unicode_blocks
           [(0x0041, "A"); (0x4E2D, "uni4E2D")] false true).
  nodup_keys.
Defined.

(** X10: every text of the [Unicode] column has from six to eight
    characters: U+ and four to six digits; in both converters. *)
Theorem unicode_column_width :
  forall (H : Host) (unicode_blocks : list block_range) (cmap : cmap_t)
         (include_control_chars show_preview : bool),
    match En.enrich unicode_blocks cmap include_control_chars show_preview
    with
    | Ok data =>
        Forall (fun r => (6 <= String.length (En.Unicode r) <= 8)%nat) data
    | Err _ => cmap = []
    end /\
    match Zh.enrich cmap include_control_chars show_preview with
    | Ok data =>
        Forall (fun r => (6 <= String.length (Zh.Unicode r) <= 8)%nat) data
    | Err _ => cmap = []
    end.
Proof.
  intros H blocks cmap inc show.
  destruct cmap as [|item rest] eqn:Ecmap; [split; reflexivity|].
  rewrite <- Ecmap in *.
  assert (Hne : cmap <> []) by (rewrite Ecmap; discriminate).
  rewrite en_enrich_spec, zh_enrich_spec by exact Hne.
  split; apply Forall_forall; intros r Hr.
  - destruct (en_sorted_row_inv blocks inc show cmap r Hr)
      as (q & h & _ & Kq & ->).
    cbn [En.Unicode]. apply format_width. eapply en_retained_range, Kq.
  - destruct (zh_sorted_row_inv inc show cmap r Hr)
      as (q & h & cat & _ & Kq & _ & ->).
    cbn [Zh.Unicode]. apply format_width. eapply zh_retained_category, Kq.
Qed.

(** * Further properties of the loop and of the conversion *)

Lemma length_flat_map_option {I R : Type} (row : I -> option R)
  (items : list I) :
  (List.length (flat_map (fun i => option_list (row i)) items)
   <= List.length items)%nat.
Proof.
  induction items as [|i rest IH]; [apply Nat.le_refl|].
  cbn [flat_map List.length]. rewrite length_app.
  destruct (row i); cbn [option_list List.length]; lia.
Qed.

(** X11: the loop counts every item of the cmap, the skipped and the faulty
    ones too; it only appends to [glyphs_data], and never more rows than it
    has counted items; in both converters. *)
Theorem loop_counts_and_appends :
  forall (H : Host) (unicode_blocks : list block_range)
         (include_control_chars show_preview : bool) (cmap : cmap_t),
    (forall s : loop_state En.glyph_row,
        let s' := for_items
                    (En.loop_body unicode_blocks include_control_chars
                       show_preview) cmap s in
        processed s' = processed s + Z.of_nat (List.length cmap) /\
        firstn (List.length (glyphs_data s)) (glyphs_data s') = glyphs_data s
        /\
        (List.length (glyphs_data s')
         <= List.length (glyphs_data s) + List.length cmap)%nat) /\
    (forall s : loop_state Zh.glyph_row,
        let s' := for_items
                    (Zh.loop_body include_control_chars show_preview) cmap s in
        processed s' = processed s + Z.of_nat (List.length cmap) /\
        firstn (List.length (glyphs_data s)) (glyphs_data s') = glyphs_data s
        /\
        (List.length (glyphs_data s')
         <= List.length (glyphs_data s) + List.length cmap)%nat).
Proof.
  intros H blocks inc show cmap. split; intros s s'; subst s'.
  - rewrite (for_items_spec _ _ (en_loop_body_spec blocks inc show)).
    cbn [processed glyphs_data]. split; [reflexivity|]. split.
    + rewrite firstn_app, Nat.sub_diag, firstn_all, app_nil_r. reflexivity.
    + rewrite length_app.
      pose proof (length_flat_map_option (En.row_of blocks inc show) cmap).
      lia.
  - rewrite (for_items_spec _ _ (zh_loop_body_spec inc show)).
    cbn [processed glyphs_data]. split; [reflexivity|]. split.
    + rewrite firstn_app, Nat.sub_diag, firstn_all, app_nil_r. reflexivity.
    + rewrite length_app.
      pose proof (length_flat_map_option (Zh.row_of inc show) cmap).
      lia.
Qed.

(** X12: every record describes one entry of the cmap: its code point is a
    key of the cmap inside the code space, its glyph name comes from the
    glyph identifier of that key, and its name, block, category and text
    are those of its own code point. *)
Theorem records_describe_cmap_entries :
  forall (H : Host) (unicode_blocks : list block_range) (cmap : cmap_t)
         (include_control_chars show_preview : bool),
    match En.enrich unicode_blocks cmap include_control_chars show_preview
    with
    | Ok data =>
        Forall (fun r =>
                  exists glyph_id,
                    In (En.CodePoint r, glyph_id) cmap /\
                    0 <= En.CodePoint r <= 0x10FFFF /\
                    En.GlyphName r = En.get_glyph_name glyph_id /\
                    En.UnicodeName r = En.get_unicode_name (En.CodePoint r) /\
                    En.Block r =
                    En.get_unicode_block unicode_blocks (En.CodePoint r) /\
                    En.Category r = En.computed_category (En.CodePoint r) /\
                    En.Unicode r = ("U+" ++ format_04X (En.CodePoint r))%string)
          data
    | Err _ => cmap = []
    end.
Proof.
  intros H blocks cmap inc show.
  destruct cmap as [|item rest] eqn:Ecmap; [reflexivity|].
  rewrite <- Ecmap in *.
  rewrite en_enrich_spec by (rewrite Ecmap; discriminate).
  apply Forall_forall. intros r Hr.
  destruct (en_sorted_row_inv blocks inc show cmap r Hr)
    as (q & h & Hq & Kq & ->).
  exists h. cbn. repeat split; try exact Hq; eapply en_retained_range, Kq.
Qed.

Lemma offered_format_has_writer (table_format : string) :
  In table_format (map snd En.supported_table_formats) ->
  exists w, En.select_writer table_format = Ok w.
Proof.
  cbn. intros [<-|[<-|[<-|[<-|[<-|[]]]]]]; eexists; reflexivity.
Qed.

(** X13: [save_table] handles exactly the formats that the radio buttons
    offer: it finds a writer for each of the five, and raises for any other
    string; in both converters. *)
Theorem offered_formats_are_handled :
  forall table_format : string,
    (In table_format (map snd En.supported_table_formats) <->
     exists w, En.select_writer table_format = Ok w) /\
    (In table_format (map snd Zh.supported_table_formats) <->
     exists w, Zh.select_writer table_format = Ok w).
Proof.
  intros f. split; split.
  - cbn. intros [<-|[<-|[<-|[<-|[<-|[]]]]]]; eexists; reflexivity.
  - unfold En.select_writer. intros [w Hw]. cbn.
    destruct (String.eqb_spec f "csv"); [auto|].
    destruct (String.eqb_spec f "xlsx"); [auto|].
    destruct (String.eqb_spec f "json"); [auto|].
    destruct (String.eqb_spec f "html"); [auto 6|].
    destruct (String.eqb_spec f "md"); [auto 6|]. discriminate.
  - cbn. intros [<-|[<-|[<-|[<-|[<-|[]]]]]]; eexists; reflexivity.
  - unfold Zh.select_writer. intros [w Hw]. cbn.
    destruct (String.eqb_spec f "csv"); [auto|].
    destruct (String.eqb_spec f "xlsx"); [auto|].
    destruct (String.eqb_spec f "json"); [auto|].
    destruct (String.eqb_spec f "html"); [auto 6|].
    destruct (String.eqb_spec f "md"); [auto 6|]. discriminate.
Qed.

(** X14: with a format of the radio buttons, [convert_thread] ends in the
    error message only for the empty cmap or when the selected writer
    raises on a frame that is not empty; [save_table] is never reached with
    an empty list; and the number of characters in the success message is
    the number of rows the writer has written. *)
Theorem conversion_reports :
  forall (H : Host) (writers : writer -> list En.table_row -> option exn)
         (unicode_blocks : list block_range) (cmap : cmap_t)
         (include_control_chars show_preview : bool) (table_format : string),
    In table_format (map snd En.supported_table_formats) ->
    match En.convert_thread_as writers unicode_blocks cmap
            include_control_chars show_preview table_format with
    | En.showerror e =>
        cmap = [] \/
        exists w table,
          En.select_writer table_format = Ok w /\ table <> [] /\
          writers w table = Some e /\
          En.convert_thread (writers w) unicode_blocks cmap
            include_control_chars show_preview = En.ConversionFailed e
    | En.showwarning =>
        forall write,
          En.convert_thread write unicode_blocks cmap include_control_chars
            show_preview = En.NoCharacters
    | En.showinfo count w table =>
        En.select_writer table_format = Ok w /\
        writers w table = None /\
        En.convert_thread (writers w) unicode_blocks cmap
          include_control_chars show_preview = En.Saved table /\
        count = List.length table /\ (0 < count)%nat
    end.
Proof.
  intros H writers blocks cmap inc show f Hf.
  destruct (offered_format_has_writer f Hf) as [w Hw].
  unfold En.convert_thread_as, En.convert_thread.
  destruct cmap as [|item rest] eqn:Ecmap; [left; reflexivity|].
  rewrite <- Ecmap in *.
  rewrite en_extract_spec by (rewrite Ecmap; discriminate).
  destruct (En.rows_of blocks inc show cmap) as [|r0 rows]; [reflexivity|].
  unfold En.save_table_as. rewrite Hw. cbv zeta.
  assert (Hlen : List.length (En.save_table (r0 :: rows))
                 = List.length (r0 :: rows)).
  { unfold En.save_table. rewrite length_map.
    apply Permutation_length, sort_values_perm. }
  destruct (writers w (En.save_table (r0 :: rows))) as [e|] eqn:Hwr.
  - right. exists w, (En.save_table (r0 :: rows)).
    split; [reflexivity|].
    split; [|split; [exact Hwr | rewrite Hwr; reflexivity]].
    intros E. rewrite E in Hlen. discriminate.
  - split; [reflexivity|]. split; [exact Hwr|].
    split; [rewrite Hwr; reflexivity|].
    split; [symmetry; exact Hlen | cbn; lia].
Qed.

Lemma conversion_reports_witness :
  match @En.convert_thread_as sample_host writers_succeed
          En.load_unicode_blocks
          [(0x0041, "A"); (0x0009, "uni0009")] false true "csv" with
  | En.showerror e =>
      [(0x0041, "A"); (0x0009, "uni0009")] = [] \/
      exists w table,
        En.select_writer "csv" = Ok w /\ table <> [] /\
        writers_succeed w table = Some e /\
        @En.convert_thread sample_host (writers_succeed w)
          En.load_unicode_blocks [(0x0041, "A"); (0x0009, "uni0009")]
          false true = En.ConversionFailed e
  | En.showwarning =>
      forall write,
        @En.convert_thread sample_host write En.load_unicode_blocks
          [(0x0041, "A"); (0x0009, "uni0009")] false true = En.NoCharacters
  | En.showinfo count w table =>
      En.select_writer "csv" = Ok w /\
      writers_succeed w table = None /\
      @En.convert_thread sample_host (writers_succeed w)
        En.load_unicode_blocks [(0x0041, "A"); (0x0009, "uni0009")]
        false true = En.Saved table /\
      count = List.length table /\ (0 < count)%nat
  end.
Proof.
  apply (conversion_reports sample_host writers_succeed
           En.load_unicode_blocks
           [(0x0041, "A"); (0x0009, "uni0009")] false true "csv").
  left. reflexivity.
Defined.

(** * The two converters side by side *)

Section Siblings.
Context `{Host}.
Variable unicode_blocks : list block_range.
Variables inc show : bool.

Lemma sibling_rows_agree (cmap : cmap_t) :
  (forall p g, In (p, g) cmap -> 0 <= p <= 0x10FFFF ->
               unicodedata_category p <> None) ->
  map (fun r => (En.Character r, En.Unicode r, En.CodePoint r, En.Category r))
    (En.rows_of unicode_blocks inc show cmap) =
  map (fun r => (Zh.Character r, Zh.Unicode r, Zh.CodePoint r, Zh.Category r))
    (Zh.rows_of inc show cmap).
Proof.
  unfold En.rows_of, Zh.rows_of.
  induction cmap as [|[q h] rest IH]; intros Hcat; [reflexivity|].
  cbn [flat_map]. rewrite !map_app, IH.
  2: { intros p g Hin. apply (Hcat p g). right. exact Hin. }
  f_equal. unfold En.row_of, Zh.row_of, En.retained, Zh.retained.
  destruct (chr q) as [c|e] eqn:E; [|reflexivity].
  apply chr_Ok_inv in E. destruct E as [-> Hq].
  specialize (Hcat q h (or_introl eq_refl) Hq).
  unfold En.computed_category.
  destruct (unicodedata_category q) as [cat|]; [|contradiction].
  destruct (negb inc && startswith_C cat); reflexivity.
Qed.
End Siblings.

(** X15: as long as the category lookup does not raise on the characters of
    the cmap, the two converters produce the same sequence of code points,
    characters, formatted texts and categories. *)
Theorem siblings_agree :
  forall (H : Host) (unicode_blocks : list block_range) (cmap : cmap_t)
         (include_control_chars show_preview : bool),
    (forall p g, In (p, g) cmap -> 0 <= p <= 0x10FFFF ->
                 unicodedata_category p <> None) ->
    match En.enrich unicode_blocks cmap include_control_chars show_preview,
          Zh.enrich cmap include_control_chars show_preview with
    | Ok en, Ok zh =>
        map (fun r =>
               (En.Character r, En.Unicode r, En.CodePoint r, En.Category r))
          en =
        map (fun r =>
               (Zh.Character r, Zh.Unicode r, Zh.CodePoint r, Zh.Category r))
          zh
    | Err _, Err _ => cmap = []
    | _, _ => False
    end.
Proof.
  intros H blocks cmap inc show Hcat.
  destruct cmap as [|item rest] eqn:Ecmap; [reflexivity|].
  rewrite <- Ecmap in *.
  assert (Hne : cmap <> []) by (rewrite Ecmap; discriminate).
  rewrite en_enrich_spec, zh_enrich_spec by exact Hne.
  rewrite (sort_values_map
             (fun r => (En.Character r, En.Unicode r, En.CodePoint r,
                        En.Category r))
             (fun t => snd (fst t))).
  rewrite (sort_values_map
             (fun r => (Zh.Character r, Zh.Unicode r, Zh.CodePoint r,
                        Zh.Category r))
             (fun t => snd (fst t))).
  rewrite (sibling_rows_agree blocks inc show cmap Hcat). reflexivity.
Qed.

Lemma siblings_agree_witness :
  match @En.enrich sample_host En.load_unicode_blocks
          [(0x4E2D, "uni4E2D"); (0x0009, "uni0009")] true false,
        @Zh.enrich sample_host [(0x4E2D, "uni4E2D"); (0x0009, "uni0009")]
          true false with
  | Ok en, Ok zh =>
      map (fun r =>
             (En.Character r, En.Unicode r, En.CodePoint r, En.Category r))
        en =
      map (fun r =>
             (Zh.Character r, Zh.Unicode r, Zh.CodePoint r, Zh.Category r))
        zh
  | Err _, Err _ => [(0x4E2D, "uni4E2D"); (0x0009, "uni0009")] = []
  | _, _ => False
  end.
Proof.
  apply (siblings_agree sample_host En.load_unicode_blocks
           [(0x4E2D, "uni4E2D"); (0x0009, "uni0009")] true false).
  intros p g _ _. unfold unicodedata_category, sample_host, sample_category.
  repeat match goal with |- context [if ?b then _ else _] => destruct b end;
    discriminate.
Defined.

(** X16 is the lemma on [tmp.py] above: a category lookup that raises gets
    no default there, and the item no record.  Here it is applied. *)
Lemma zh_category_failure_skipped_witness :
  (forall s,
      fst (@Zh.loop_body failing_host true true (0x0041, "A") s)
      = Raised CollaboratorError) /\
  exists data,
    @Zh.enrich failing_host [(0x0041, "A")] true true = Ok data /\
    filter (fun r => Zh.CodePoint r =? 0x0041) data = [].
Proof.
  apply (zh_category_failure_skipped failing_host [(0x0041, "A")] true true
           0x0041 "A").
  - nodup_keys.
  - left. reflexivity.
  - lia.
  - reflexivity.
Defined.

(** X17: the table of [tmp.py] is a part of the English table: on every
    integer for which [tmp.py] names a block, the English-language converter
    names one too. *)
Theorem english_table_covers_tmp :
  forall p : Z,
    Zh.get_unicode_block p = "其他区块" \/
    En.get_unicode_block En.load_unicode_blocks p <> "Unassigned".
Proof.
  intros p. unfold Zh.get_unicode_block. rewrite zh_lookup_find, en_lookup_find.
  pose proof (find_split (fun r => in_range r p) Zh.blocks) as Hz.
  destruct (find _ Zh.blocks) as [rz|]; [right | left; reflexivity].
  destruct Hz as (pre & post & E & Hin & _).
  assert (Hsub : subtable Zh.blocks En.load_unicode_blocks = true)
    by (vm_compute; reflexivity).
  unfold subtable in Hsub. rewrite forallb_forall in Hsub.
  assert (Hrz : In rz Zh.blocks).
  { rewrite E. apply in_or_app. right. left. reflexivity. }
  specialize (Hsub rz Hrz). apply existsb_exists in Hsub.
  destruct Hsub as (re & Hre & Hsame).
  assert (Hp : in_range re p = true).
  { unfold same_bounds in Hsame. apply andb_true_iff in Hsame.
    destruct Hsame as [Hs He]. apply Z.eqb_eq in Hs, He.
    unfold in_range in *. rewrite <- Hs, <- He. exact Hin. }
  pose proof (find_split (fun r => in_range r p) En.load_unicode_blocks) as He.
  destruct (find _ En.load_unicode_blocks) as [r0|].
  - destruct He as (pre' & post' & E' & _ & _).
    assert (Hnames : forallb (fun r => negb (range_name r =? "Unassigned")%string)
                       En.load_unicode_blocks = true)
      by (vm_compute; reflexivity).
    rewrite forallb_forall in Hnames.
    assert (Hr0 : In r0 En.load_unicode_blocks).
    { rewrite E'. apply in_or_app. right. left. reflexivity. }
    specialize (Hnames r0 Hr0). apply negb_true_iff, String.eqb_neq in Hnames.
    exact Hnames.
  - rewrite (He re Hre) in Hp. discriminate.
Qed.
